(** * GenAI Intelligence Studio: ingestion, transcript and vector-store layer

    A shallow embedding of
      - src/document_ingestion/document_processor.py  (DocumentProcessor)
      - src/video/video_processor.py                  (VideoProcessor)
      - src/vectorstore/vectorstore.py                (VectorStore)

    Python [str] values are lists of characters; a character is an [ascii],
    read as a code point below 256.  Exceptions are values of [exn] carried
    by [result].  The third-party collaborators (the langchain loaders and
    splitter, pathlib, the transcript provider, Pinecone, the float
    conversions) are type classes: the code takes them as it finds them and
    the theorems hold for every instance. *)

From Stdlib Require Import Ascii String DecimalString.
From stdpp Require Import gmap strings list fin_maps.

Local Open Scope list_scope.

(** ** Python strings and the built-in operations the sources use *)

Module Py.

Abbreviation str := (list ascii).

(** A Python string literal. *)
Definition lit (s : string) : str := list_ascii_of_string s.

(** The exceptions raised by the modelled code; [External] stands for
    whatever a third-party collaborator raises. *)
Inductive exn : Type :=
| ValueError (msg : str)
| IndexError
| External (tag : str).

Inductive result (A : Type) : Type :=
| Ok (a : A)
| Err (e : exn).
Arguments Ok {A} a.
Arguments Err {A} e.

Definition bind {A B} (r : result A) (k : A -> result B) : result B :=
  match r with
  | Ok a => k a
  | Err e => Err e
  end.

Definition is_ok {A} (r : result A) : bool :=
  match r with Ok _ => true | Err _ => false end.

Definition ascii_eqb (a b : ascii) : bool := Ascii.eqb a b.

(** [s.startswith(p)] *)
Fixpoint startswith (s p : str) {struct p} : bool :=
  match p with
  | [] => true
  | c :: p' =>
      match s with
      | [] => false
      | d :: s' => ascii_eqb c d && startswith s' p'
      end
  end.

(** [s.find(sep)]: index of the leftmost occurrence of [sep] in [s]. *)
Fixpoint find (s sep : str) : option nat :=
  if startswith s sep then Some 0
  else match s with
       | [] => None
       | _ :: s' => S <$> find s' sep
       end.

(** [sep in s] *)
Definition contains (sep s : str) : bool :=
  match find s sep with Some _ => true | None => false end.

(** [s.split(sep)] for a non-empty [sep], as CPython computes it: look for
    the next occurrence from the current position, cut the piece before it,
    resume just after it; the remainder is the last piece.  Every cut
    consumes at least one character, so [length s] rounds are enough. *)
Fixpoint split_from (rounds : nat) (s sep : str) : list str :=
  match rounds with
  | O => [s]
  | S n =>
      match find s sep with
      | None => [s]
      | Some i => take i s :: split_from n (drop (i + length sep) s) sep
      end
  end.

Definition split (s sep : str) : list str := split_from (length s) s sep.

(** [l[0]] and [l[-1]] *)
Definition first {A} (l : list A) : result A :=
  match l with
  | [] => Err IndexError
  | x :: _ => Ok x
  end.

Definition last {A} (l : list A) : result A :=
  match rev l with
  | [] => Err IndexError
  | x :: _ => Ok x
  end.

(** [str.isspace] on one character, for code points below 256:
    U+0009..U+000D, U+001C..U+0020, U+0085 and U+00A0. *)
Definition isspace (c : ascii) : bool :=
  let n := nat_of_ascii c in
  ((9 <=? n) && (n <=? 13)) || ((28 <=? n) && (n <=? 32))
  || (n =? 133) || (n =? 160).

Fixpoint lstrip (s : str) : str :=
  match s with
  | [] => []
  | c :: s' => if isspace c then lstrip s' else s
  end.

Definition rstrip (s : str) : str := rev (lstrip (rev s)).

(** [s.strip()] *)
Definition strip (s : str) : str := rstrip (lstrip s).

(** [c.isdigit] as the regular expression class [\d] sees it; below
    U+0100 the only decimal digits are 0..9. *)
Definition isdigit (c : ascii) : bool :=
  let n := nat_of_ascii c in (48 <=? n) && (n <=? 57).

(** [s.lower()] on one character, for code points below 256: A..Z and the
    Latin-1 capitals U+00C0..U+00DE except the multiplication sign. *)
Definition lower_char (c : ascii) : ascii :=
  let n := nat_of_ascii c in
  if ((65 <=? n) && (n <=? 90))
     || ((192 <=? n) && (n <=? 222) && negb (n =? 215))
  then ascii_of_nat (n + 32) else c.

Definition lower (s : str) : str := map lower_char s.

(** [sep.join(parts)] *)
Fixpoint join (sep : str) (parts : list str) : str :=
  match parts with
  | [] => []
  | [p] => p
  | p :: rest => p ++ sep ++ join sep rest
  end.

End Py.

Import Py.

(** ** What the string operations are expected to compute *)

Module PySpec.

(** [s] has an occurrence of [sep] after the prefix [a], followed by [b]. *)
Definition occurs (sep s a b : str) : Prop := s = a ++ sep ++ b.

(** [piece] is [s] up to, and without, its first occurrence of [sep]. *)
Definition up_to_first (sep s piece : str) : Prop :=
  ((exists tail, s = piece ++ sep ++ tail) \/ s = piece) /\
  (forall a b, ~ occurs sep piece a b).

(** [t] is [s] without the white space around it. *)
Definition stripped (s t : str) : Prop :=
  (exists l r, s = l ++ t ++ r /\
               forallb isspace l = true /\ forallb isspace r = true) /\
  (forall c t', t = c :: t' -> isspace c = false) /\
  (forall c t', t = t' ++ [c] -> isspace c = false).

(** A separator two of whose occurrences can never overlap: no proper
    suffix of it is a prefix of it. *)
Definition overlap_free (sep : str) : bool :=
  forallb (fun d => negb (startswith sep (drop d sep)))
          (seq 1 (length sep - 1)).

End PySpec.

Import PySpec.

(** ** src/video/video_processor.py, the pure part *)

Module VideoId.

Definition WATCH : str := lit "watch?v=".
Definition YOUTU_BE : str := lit "youtu.be/".
Definition AMP : str := lit "&".
Definition QMARK : str := lit "?".

(** [VideoProcessor.extract_video_id] (a static method). *)
Definition extract_video_id (url : str) : result str :=
  if contains WATCH url then
    bind (last (split url WATCH)) (fun tail =>
    bind (first (split tail AMP)) (fun v => Ok (strip v)))
  else if contains YOUTU_BE url then
    bind (last (split url YOUTU_BE)) (fun tail =>
    bind (first (split tail QMARK)) (fun v => Ok (strip v)))
  else Err (ValueError (lit "Invalid YouTube link")).

End VideoId.

Import VideoId.

(** ** Documents as langchain passes them around *)

(** Python numbers that end up in metadata or in a transcript; the
    floating-point conversions themselves are left to the interpreter. *)
Class PyFloat := {
  float : Type;
  (** [float(s)] *)
  float_of_str : str -> float;
  (** [float(n)] for an [int]: raises OverflowError when [n] is too large
      for a float *)
  float_of_int : Z -> result float;
  (** [f"{x:.1f}"] for a float *)
  format_1f : float -> str;
  (** [str(x)] for a float *)
  float_str : float -> str;
  (** [str(n)] for an [int]: raises ValueError when [n] has more digits
      than the interpreter's limit for the conversion *)
  int_str : Z -> result str;
}.

Section Documents.
Context `{PyFloat}.

Inductive value : Type :=
| VStr (s : str)
| VInt (z : Z)
| VFloat (x : float).

(** [Document(page_content=..., metadata=...)]; the keys of the metadata
    dictionary are written as Rocq strings. *)
Record Document : Type := mkDocument {
  page_content : str;
  metadata : gmap string value;
}.

(** [d.setdefault(k, v)] *)
Definition setdefault (k : string) (v : value) (d : gmap string value)
  : gmap string value :=
  match d !! k with
  | Some _ => d
  | None => <[k := v]> d
  end.

End Documents.

(** The document loaders of langchain_community and the json module:
    each takes the path (or URL) it was constructed with and returns what
    its [load()] returns, or raises. *)
Class Loaders `{PyFloat} := {
  WebBaseLoader : str -> result (list Document);
  PyPDFLoader : str -> result (list Document);
  TextLoader : str -> result (list Document);
  Docx2txtLoader : str -> result (list Document);
  UnstructuredHTMLLoader : str -> result (list Document);
  UnstructuredMarkdownLoader : str -> result (list Document);
  CSVLoader : str -> result (list Document);
  (** the values [json.load] returns, and [isinstance(x, list)] with the
      items of the list *)
  json : Type;
  json_items : json -> option (list json);
  (** [json.load(open(path, 'r', encoding='utf-8'))] *)
  json_load : str -> result json;
  (** [json.dumps(x, indent=2)] *)
  json_dumps : json -> str;
}.

(** pathlib: [Path(s)], [p.suffix] and [str(p)]. *)
Class PathLib := {
  Path : Type;
  Path_of : str -> Path;
  Path_suffix : Path -> str;
  Path_str : Path -> str;
}.

(** langchain_text_splitters.RecursiveCharacterTextSplitter: its constructor
    (which may raise) and [split_text]. *)
Class TextSplitter := {
  splitter : Type;
  RecursiveCharacterTextSplitter : Z -> Z -> result splitter;
  split_text : splitter -> str -> list str;
}.

Section SplitDocuments.
Context `{PyFloat} `{TextSplitter}.

(** Modelled from the spec: the body of the splitter's [split_documents]
    is library code that is not part of the sources; section 4.3 says it
    applies the splitter to each unit's content independently and copies
    the parent's metadata onto every resulting chunk unchanged.  Every
    chunk gets a metadata dictionary of its own. *)
Definition splitter_split_documents (sp : splitter) (documents : list Document)
  : list Document :=
  flat_map (fun d => map (fun c => mkDocument c (metadata d))
                         (split_text sp (page_content d)))
           documents.

End SplitDocuments.

(** ** src/document_ingestion/document_processor.py *)

Module DocumentProcessor.
Section DocumentProcessor.
Context `{PF : PyFloat} `{!Loaders} `{PathLib} `{TextSplitter}.

Record t : Type := mk {
  chunk_size : Z;
  chunk_overlap : Z;
  the_splitter : splitter;
}.

(** [__init__(self, chunk_size=500, chunk_overlap=50)] *)
Definition init (chunk_size chunk_overlap : Z) : result t :=
  bind (RecursiveCharacterTextSplitter chunk_size chunk_overlap)
       (fun sp => Ok (mk chunk_size chunk_overlap sp)).

Definition default_chunk_size : Z := 500.
Definition default_chunk_overlap : Z := 50.

Definition load_from_url (url : str) : result (list Document) :=
  WebBaseLoader url.

(** One round of [for d in docs: d.metadata.setdefault("source", str(file_path))]. *)
Definition ensure_source (file_path : str) (d : Document) : Document :=
  mkDocument (page_content d)
             (setdefault "source" (VStr file_path) (metadata d)).

(** One round of the loop that also has [d.metadata["file_type"] = tag]. *)
Definition ensure_source_and_type (file_path : str) (tag : string)
    (d : Document) : Document :=
  mkDocument (page_content d)
             (<["file_type" := VStr (lit tag)]>
                (setdefault "source" (VStr file_path) (metadata d))).

(** The handlers take [str(file_path)]. *)
Definition load_from_pdf (file_path : str) : result (list Document) :=
  bind (PyPDFLoader file_path) (fun docs =>
  Ok (map (ensure_source file_path) docs)).

Definition load_from_txt (file_path : str) : result (list Document) :=
  bind (TextLoader file_path) (fun docs =>
  Ok (map (ensure_source file_path) docs)).

Definition load_from_docx (file_path : str) : result (list Document) :=
  bind (Docx2txtLoader file_path) (fun docs =>
  Ok (map (ensure_source_and_type file_path "docx") docs)).

Definition load_from_csv (file_path : str) : result (list Document) :=
  bind (CSVLoader file_path) (fun docs =>
  Ok (map (ensure_source_and_type file_path "csv") docs)).

Definition load_from_json (file_path : str) : result (list Document) :=
  bind (json_load file_path) (fun data =>
  let content :=
    match json_items data with
    | Some items => join (lit (String "010" (String "010" EmptyString)))
                         (map json_dumps items)
    | None => json_dumps data
    end in
  Ok [mkDocument content
        (<["source" := VStr file_path]>
           (<["file_type" := VStr (lit "json")]> ∅))]).

Definition load_from_markdown (file_path : str) : result (list Document) :=
  bind (UnstructuredMarkdownLoader file_path) (fun docs =>
  Ok (map (ensure_source_and_type file_path "markdown") docs)).

Definition load_from_html (file_path : str) : result (list Document) :=
  bind (UnstructuredHTMLLoader file_path) (fun docs =>
  Ok (map (ensure_source_and_type file_path "html") docs)).

Definition load_from_python (file_path : str) : result (list Document) :=
  bind (TextLoader file_path) (fun docs =>
  Ok (map (ensure_source_and_type file_path "python") docs)).

(** The handlers that tag their documents, with their tags. *)
Definition tagging_handlers : list ((str -> result (list Document)) * string) :=
  [ (load_from_docx, "docx"); (load_from_csv, "csv");
    (load_from_json, "json"); (load_from_markdown, "markdown");
    (load_from_html, "html"); (load_from_python, "python") ]%string.

(** The dictionary [extension_loaders] of [load_documents]. *)
Definition extension_loaders : gmap string (str -> result (list Document)) :=
  list_to_map
    [ (".pdf", load_from_pdf);
      (".txt", load_from_txt);
      (".docx", load_from_docx);
      (".doc", load_from_docx);
      (".csv", load_from_csv);
      (".json", load_from_json);
      (".md", load_from_markdown);
      (".markdown", load_from_markdown);
      (".html", load_from_html);
      (".htm", load_from_html);
      (".py", load_from_python) ]%string.

(** The extensions that the specification lists as supported. *)
Definition supported_extensions : list string :=
  [ ".pdf"; ".txt"; ".docx"; ".doc"; ".csv"; ".json"; ".md"; ".markdown";
    ".html"; ".htm"; ".py" ]%string.

Definition unsupported_message (src_str : str) : str :=
  lit "Unsupported source type: " ++ src_str ++
  lit ". Supported: URL, .pdf, .txt, .docx, .csv, .json, .md, .html, .py".

Definition is_url (src_str : str) : bool :=
  startswith src_str (lit "http://") || startswith src_str (lit "https://").

(** [Path(src_str).suffix.lower()] *)
Definition suffix_of (src_str : str) : string :=
  string_of_list_ascii (lower (Path_suffix (Path_of src_str))).

(** The loop of [load_documents], with [docs] the list built so far; a
    raise leaves the loop and the list with it. *)
Fixpoint load_documents_from (docs : list Document) (sources : list str)
  : result (list Document) :=
  match sources with
  | [] => Ok docs
  | src_str :: rest =>
      if is_url src_str then
        bind (load_from_url src_str) (fun new =>
        load_documents_from (docs ++ new) rest)
      else
        match extension_loaders !! suffix_of src_str with
        | Some loader =>
            bind (loader (Path_str (Path_of src_str))) (fun new =>
            load_documents_from (docs ++ new) rest)
        | None => Err (ValueError (unsupported_message src_str))
        end
  end.

Definition load_documents (sources : list str) : result (list Document) :=
  load_documents_from [] sources.

Definition split_documents (self : t) (documents : list Document)
  : list Document :=
  splitter_split_documents (the_splitter self) documents.

(** A source that is neither a URL nor a file with an extension of the
    table. *)
Definition unsupported (src_str : str) : Prop :=
  is_url src_str = false /\ extension_loaders !! suffix_of src_str = None.

(** What one round of the loop of [load_documents] does with its source. *)
Definition load_source (src_str : str) : result (list Document) :=
  if is_url src_str then load_from_url src_str
  else match extension_loaders !! suffix_of src_str with
       | Some loader => loader (Path_str (Path_of src_str))
       | None => Err (ValueError (unsupported_message src_str))
       end.

Definition process_sources (self : t) (sources : list str)
  : result (list Document) :=
  bind (load_documents sources) (fun docs => Ok (split_documents self docs)).

End DocumentProcessor.
End DocumentProcessor.

(** ** src/video/video_processor.py *)

(** The text that the pattern [\[(\d+\.\d+)s\]] describes: [m] is a marker
    whose number, group 1, is [g]. *)
Definition is_marker (m g : str) : Prop :=
  exists d1 d2 : str,
    d1 <> [] /\ d2 <> [] /\
    forallb isdigit d1 = true /\ forallb isdigit d2 = true /\
    g = d1 ++ lit "." ++ d2 /\
    m = lit "[" ++ g ++ lit "s]".

(** [s] has a marker with number [g] starting at index [i]. *)
Definition marker_at (s : str) (i : nat) (g : str) : Prop :=
  exists pre m post : str,
    s = pre ++ m ++ post /\ length pre = i /\ is_marker m g.

(** The marker at [i] is the first one of [s]. *)
Definition first_marker (s : str) (i : nat) (g : str) : Prop :=
  marker_at s i g /\ forall j g', j < i -> ~ marker_at s j g'.

(** youtube_transcript_api: one fetched snippet, and [fetch(video_id)],
    which goes to the network and may raise. *)
Record Snippet `{PyFloat} : Type := mkSnippet {
  snippet_text : str;
  snippet_start : float;
  snippet_duration : float;
}.

Class TranscriptApi `{PyFloat} := {
  YouTubeTranscriptApi_fetch : str -> result (list Snippet);
}.

Module VideoProcessor.

(** The network requests made so far: the video ids handed to [fetch]. *)
Abbreviation net_log := (list str).

Section VideoProcessor.
Context `{PF : PyFloat} `{!TranscriptApi} `{TextSplitter}.

Record t : Type := mk {
  the_splitter : splitter;
}.

(** [__init__(self, chunk_size=400, chunk_overlap=50)] *)
Definition init (chunk_size chunk_overlap : Z) : result t :=
  bind (RecursiveCharacterTextSplitter chunk_size chunk_overlap)
       (fun sp => Ok (mk sp)).

(** One element of the list comprehension of [load_transcript]. *)
Definition entry_dict (e : Snippet) : gmap string value :=
  <["text" := VStr (snippet_text e)]>
    (<["start" := VFloat (snippet_start e)]>
       (<["duration" := VFloat (snippet_duration e)]> ∅)).

(** [load_transcript]: the id is extracted first; only then is the
    provider called. *)
Definition load_transcript (url : str) (log : net_log)
  : result (list (gmap string value)) * net_log :=
  match extract_video_id url with
  | Err e => (Err e, log)
  | Ok video_id =>
      (bind (YouTubeTranscriptApi_fetch video_id)
            (fun transcript => Ok (map entry_dict transcript)),
       log ++ [video_id])
  end.

(** [f"{start:.1f}"]: a float is formatted, an int is made a float first,
    which fails when it is too large, and a string is refused. *)
Definition format_start (start : value) : result str :=
  match start with
  | VFloat x => Ok (format_1f x)
  | VInt z => bind (float_of_int z) (fun x => Ok (format_1f x))
  | VStr _ =>
      Err (ValueError (lit "Unknown format code 'f' for object of type 'str'"))
  end.

(** [f"{t}"]: [str(t)], which fails for an int with too many digits. *)
Definition format_text (t : value) : result str :=
  match t with
  | VStr s => Ok s
  | VInt z => int_str z
  | VFloat x => Ok (float_str x)
  end.

(** [f"[{start:.1f}s] {t}"] for one entry; the fields are formatted from
    left to right. *)
Definition entry_line (entry : gmap string value) : result str :=
  let t := default (VStr []) (entry !! "text") in
  let start := default (VInt 0) (entry !! "start") in
  bind (format_start start) (fun s =>
  bind (format_text t) (fun text =>
  Ok (lit "[" ++ s ++ lit "s] " ++ text))).

Fixpoint entry_lines (transcript : list (gmap string value))
  : result (list str) :=
  match transcript with
  | [] => Ok []
  | entry :: rest =>
      bind (entry_line entry) (fun l =>
      bind (entry_lines rest) (fun ls => Ok (l :: ls)))
  end.

Definition NEWLINE : str := lit (String "010" EmptyString).

(** The merged transcript of the specification's example. *)
Definition EXAMPLE_TEXT : str :=
  lit "[0.0s] hello" ++ NEWLINE ++ lit "[2.5s] world".

Definition transcript_to_document (transcript : list (gmap string value))
    (url : str) : result Document :=
  bind (entry_lines transcript) (fun full_text =>
  Ok (mkDocument (join NEWLINE full_text)
        (<["source" := VStr url]>
           (<["type" := VStr (lit "youtube_transcript")]> ∅)))).

Definition chunk_document (self : t) (doc : Document) : list Document :=
  splitter_split_documents (the_splitter self) [doc].

(** The longest run of digits at the front of [s], and what follows. *)
Fixpoint digits (s : str) : str * str :=
  match s with
  | [] => ([], [])
  | c :: s' =>
      if isdigit c then let '(d, r) := digits s' in (c :: d, r)
      else ([], s)
  end.

Definition expect (c : ascii) (s : str) : option str :=
  match s with
  | d :: s' => if ascii_eqb c d then Some s' else None
  | [] => None
  end.

Definition nonempty (d : str) : option str :=
  match d with [] => None | _ => Some d end.

(** The pattern [\[(\d+\.\d+)s\]] tried at the front of [s]; the result is
    group 1. *)
Definition match_timestamp (s : str) : option str :=
  r0 ← expect "[" s;
  let '(d1, r1) := digits r0 in
  d1 ← nonempty d1;
  r2 ← expect "." r1;
  let '(d2, r3) := digits r2 in
  d2 ← nonempty d2;
  r4 ← expect "s" r3;
  _ ← expect "]" r4;
  Some (d1 ++ "."%char :: d2).

(** [re.search(r"\[(\d+\.\d+)s\]", s)]: the match at the leftmost position
    that has one. *)
Fixpoint re_search (s : str) : option str :=
  match match_timestamp s with
  | Some g => Some g
  | None =>
      match s with
      | [] => None
      | _ :: s' => re_search s'
      end
  end.

(** The body of the loop [for ch in chunks] of [process_video]. *)
Definition annotate (ch : Document) : Document :=
  match re_search (page_content ch) with
  | Some g =>
      mkDocument (page_content ch)
        (<["timestamp_start" := VFloat (float_of_str g)]> (metadata ch))
  | None => ch
  end.

Definition process_video (self : t) (url : str) (log : net_log)
  : result (list Document) * net_log :=
  let '(r, log') := load_transcript url log in
  (bind r (fun transcript =>
   bind (transcript_to_document transcript url) (fun base_doc =>
   Ok (map annotate (chunk_document self base_doc)))),
   log').

End VideoProcessor.
End VideoProcessor.

(** ** src/vectorstore/vectorstore.py *)

(** src.config.config.Config and the environment. *)
Class Config := {
  EMBEDDING_MODEL_NAME : str;
  PINECONE_INDEX_NAME : str;
  PINECONE_NAMESPACE : str;
  PINECONE_API_KEY : option str;
}.

(** [HuggingFaceEmbeddings(model_name=..., ...)] *)
Record Embeddings : Type := mkEmbeddings {
  model_name : str;
  device : str;
  normalize_embeddings : bool;
}.

(** [PineconeVectorStore(embedding=..., index_name=..., text_key=...,
    namespace=..., pinecone_api_key=...)] *)
Record PineconeVectorStore : Type := mkPineconeVectorStore {
  pvs_embedding : Embeddings;
  pvs_index_name : str;
  pvs_text_key : str;
  pvs_namespace : str;
  pvs_api_key : option str;
}.

(** [vectorstore.as_retriever()]: a retriever bound to one store, with the
    search arguments the library chooses when none are given. *)
Record Retriever : Type := mkRetriever {
  retriever_store : PineconeVectorStore;
}.

(** The services behind the store: the remote index, whether the
    constructors [HuggingFaceEmbeddings(...)] and [PineconeVectorStore(...)]
    return or raise (a model that cannot be loaded, a missing API key, an
    index that does not exist or cannot be reached at that moment), what
    [add_documents] does to the index (embedding and upsert) and what a
    retriever's [invoke] answers. *)
Class Pinecone `{PyFloat} := {
  index : Type;
  HuggingFaceEmbeddings_init : Embeddings -> result unit;
  PineconeVectorStore_init : PineconeVectorStore -> index -> result unit;
  pinecone_add_documents :
    PineconeVectorStore -> list Document -> index -> result unit * index;
  pinecone_invoke :
    Retriever -> str -> index -> result (list Document) * index;
}.

Module VectorStore.
Section VectorStore.
Context `{PF : PyFloat} `{!Pinecone} `{Config}.

(** The requests that carry documents or queries to the embedding model
    and the index. *)
Inductive call : Type :=
| CallAddDocuments (store : PineconeVectorStore) (documents : list Document)
| CallInvoke (r : Retriever) (query : str).

Record world : Type := mkWorld {
  remote : index;
  calls : list call;
}.

Record t : Type := mk {
  embedding : Embeddings;
  index_name : str;
  namespace : str;
  vectorstore : PineconeVectorStore;
  retriever : option Retriever;
}.

Definition set_retriever (self : t) (r : Retriever) : t :=
  mk (embedding self) (index_name self) (namespace self) (vectorstore self)
     (Some r).

Definition TEXT_KEY : str := lit "text".

(** [namespace or Config.PINECONE_NAMESPACE] *)
Definition namespace_or_default (namespace : option str) : str :=
  match namespace with
  | Some (c :: ns) => c :: ns
  | Some [] | None => PINECONE_NAMESPACE
  end.

(** [__init__(self, namespace=None)]: the embeddings are made first, then
    the store; when either constructor raises there is no object. *)
Definition init (namespace : option str) (w : world) : result t :=
  let emb := mkEmbeddings EMBEDDING_MODEL_NAME (lit "cpu") true in
  bind (HuggingFaceEmbeddings_init emb) (fun _ =>
  let ns := namespace_or_default namespace in
  let store :=
    mkPineconeVectorStore emb PINECONE_INDEX_NAME TEXT_KEY ns
      PINECONE_API_KEY in
  bind (PineconeVectorStore_init store (remote w)) (fun _ =>
  Ok (mk emb PINECONE_INDEX_NAME ns store None))).

Definition as_retriever (store : PineconeVectorStore) : Retriever :=
  mkRetriever store.

(** [add_documents(self, documents)] *)
Definition add_documents (self : t) (documents : list Document) (w : world)
  : result unit * t * world :=
  match documents with
  | [] =>
      (Err (ValueError (lit "No documents provided to add to vector store.")),
       self, w)
  | _ :: _ =>
      let '(r, remote') :=
        pinecone_add_documents (vectorstore self) documents (remote w) in
      let w' :=
        mkWorld remote'
          (calls w ++ [CallAddDocuments (vectorstore self) documents]) in
      match r with
      | Err e => (Err e, self, w')
      | Ok _ =>
          (Ok tt, set_retriever self (as_retriever (vectorstore self)), w')
      end
  end.

(** [get_retriever(self)] *)
Definition get_retriever (self : t) : Retriever * t :=
  match retriever self with
  | None =>
      let r := as_retriever (vectorstore self) in (r, set_retriever self r)
  | Some r => (r, self)
  end.

(** [retrieve(self, query, k=4)]: [k] is a parameter of the method and the
    body does not mention it. *)
Definition retrieve (self : t) (query : str) (k : Z) (w : world)
  : result (list Document) * t * world :=
  let '(r, self') := get_retriever self in
  let '(res, remote') := pinecone_invoke r query (remote w) in
  (res, self', mkWorld remote' (calls w ++ [CallInvoke r query])).

Definition default_k : Z := 4.

(** [switch_namespace(self, namespace)]: the namespace is written first;
    when the store's constructor then raises, the object keeps the new
    namespace with the store and the retriever it had. *)
Definition switch_namespace (self : t) (namespace : str) (w : world)
  : result unit * t :=
  let renamed :=
    mk (embedding self) (index_name self) namespace (vectorstore self)
       (retriever self) in
  let store :=
    mkPineconeVectorStore (embedding self) (index_name self) TEXT_KEY
      namespace PINECONE_API_KEY in
  match PineconeVectorStore_init store (remote w) with
  | Err e => (Err e, renamed)
  | Ok _ =>
      (Ok tt,
       mk (embedding self) (index_name self) namespace store
          (Some (as_retriever store)))
  end.

End VectorStore.
End VectorStore.


(** ** Stand-ins for the collaborators, to run the code on examples *)

Module Doubles.

(** Floats kept as the decimal text they were read from; an int becomes a
    float when it has at most 1024 bits and a string when it has at most
    4300 digits. *)
Definition text_float : PyFloat := {|
  float := str;
  float_of_str s := s;
  float_of_int z :=
    if (Z.log2 (Z.abs z) <? 1024)%Z
    then Ok (lit (NilZero.string_of_int (Z.to_int z)) ++ lit ".0")
    else Err (External (lit "OverflowError: int too large to convert to float"));
  format_1f x := x;
  float_str x := x;
  int_str z :=
    if String.length (NilZero.string_of_int (Z.to_int (Z.abs z))) <=? 4300
    then Ok (lit (NilZero.string_of_int (Z.to_int z)))
    else Err (ValueError
                (lit "Exceeds the limit (4300 digits) for integer string conversion"));
|}.

Abbreviation Doc := (@Document text_float).
Abbreviation doc := (@mkDocument text_float).

(** Loaders that find every file: the PDF loader reports the path and a
    page number, as pypdf does, the others the path only. *)
Definition found (file_path : str) (extra : gmap string (@value text_float))
  : result (list Doc) :=
  Ok [doc (lit "content of " ++ file_path)
          (<["source" := VStr file_path]> extra)].

Definition finding_loaders : @Loaders text_float := {|
  WebBaseLoader url := found url ∅;
  PyPDFLoader file_path := found file_path {["page" := VInt 0]};
  TextLoader file_path := found file_path ∅;
  Docx2txtLoader file_path := found file_path ∅;
  UnstructuredHTMLLoader file_path := found file_path ∅;
  UnstructuredMarkdownLoader file_path := found file_path ∅;
  CSVLoader file_path := found file_path ∅;
  json := str;
  json_items _ := None;
  json_load file_path := Ok (lit "{}");
  json_dumps x := x;
|}.

(** The part of [name] from its last dot on. *)
Fixpoint from_last_dot (name : str) : option str :=
  match name with
  | [] => None
  | c :: rest =>
      match from_last_dot rest with
      | Some x => Some x
      | None => if ascii_eqb c "." then Some name else None
      end
  end.

(** Paths kept as strings; the suffix is taken from the last component,
    and a dot that starts or ends the name gives no suffix. *)
Definition plain_suffix (p : str) : str :=
  match rev (split p (lit "/")) with
  | (_ :: rest) :: _ =>
      match from_last_dot rest with
      | Some (d :: c :: x) => d :: c :: x
      | _ => []
      end
  | _ => []
  end.

Definition plain_paths : PathLib := {|
  Path := str;
  Path_of s := s;
  Path_suffix := plain_suffix;
  Path_str p := p;
|}.

(** A splitter that accepts every configuration and whose chunk size no
    text reaches: each text is one chunk. *)
Definition whole_splitter : TextSplitter := {|
  splitter := unit;
  RecursiveCharacterTextSplitter _ _ := Ok tt;
  split_text _ s := [s];
|}.

(** A provider with one two-line transcript for every video. *)
Definition canned_api : @TranscriptApi text_float := {|
  YouTubeTranscriptApi_fetch _ :=
    Ok [ @mkSnippet text_float (lit "hello") (lit "0.0") (lit "2.5");
         @mkSnippet text_float (lit "world") (lit "2.5") (lit "1.0") ];
|}.

(** An index kept in memory: the documents of each namespace in the order
    they were added; a retriever answers with the first four documents of
    its namespace, whatever the query.  Every model loads; a store is made
    only with an API key. *)
Definition memory_index : @Pinecone text_float := {|
  index := list (str * Doc);
  HuggingFaceEmbeddings_init _ := Ok tt;
  PineconeVectorStore_init store _ :=
    match pvs_api_key store with
    | Some _ => Ok tt
    | None => Err (ValueError (lit "Pinecone API key must be provided"))
    end;
  pinecone_add_documents store documents idx :=
    (Ok tt, idx ++ map (fun d => (pvs_namespace store, d)) documents);
  pinecone_invoke r query idx :=
    (Ok (take 4 (omap (fun '(ns, d) =>
                         if decide (ns = pvs_namespace (retriever_store r))
                         then Some d else None) idx)),
     idx);
|}.

Definition test_config : Config := {|
  EMBEDDING_MODEL_NAME := lit "sentence-transformers/all-MiniLM-L6-v2";
  PINECONE_INDEX_NAME := lit "studio";
  PINECONE_NAMESPACE := lit "default";
  PINECONE_API_KEY := Some (lit "key");
|}.

End Doubles.

(** ** Vocabulary for the properties of the remaining code *)

Module DocumentProcessorSpec.
Import DocumentProcessor.
Section DocumentProcessorSpec.
Context `{PF : PyFloat} `{!Loaders}.

(** The handlers that wrap a langchain loader, each with the loader it
    calls and the tag it writes under [file_type], if it writes one. *)
Definition loader_handlers
  : list ((str -> result (list Document)) *
          (str -> result (list Document)) * option string) :=
  [ (load_from_pdf, PyPDFLoader, None);
    (load_from_txt, TextLoader, None);
    (load_from_docx, Docx2txtLoader, Some "docx");
    (load_from_csv, CSVLoader, Some "csv");
    (load_from_markdown, UnstructuredMarkdownLoader, Some "markdown");
    (load_from_html, UnstructuredHTMLLoader, Some "html");
    (load_from_python, TextLoader, Some "python") ]%string.

(** The entries of the dictionary [extension_loaders], as it is written
    in [load_documents]. *)
Definition extension_handlers
  : list (string * (str -> result (list Document))) :=
  [ (".pdf", load_from_pdf);
    (".txt", load_from_txt);
    (".docx", load_from_docx);
    (".doc", load_from_docx);
    (".csv", load_from_csv);
    (".json", load_from_json);
    (".md", load_from_markdown);
    (".markdown", load_from_markdown);
    (".html", load_from_html);
    (".htm", load_from_html);
    (".py", load_from_python) ]%string.

(** How a handler's document [d'] relates to the loader's document [d]. *)
Definition handled (file_path : str) (tag : option string)
    (d d' : Document) : Prop :=
  page_content d' = page_content d /\
  metadata d' !! "source" =
    Some (default (VStr file_path) (metadata d !! "source")) /\
  metadata d' !! "file_type" =
    match tag with
    | Some t => Some (VStr (lit t))
    | None => metadata d !! "file_type"
    end /\
  (forall k : string,
     k <> "source"%string -> k <> "file_type"%string ->
     metadata d' !! k = metadata d !! k).

End DocumentProcessorSpec.
End DocumentProcessorSpec.

Module VideoProcessorSpec.
Import VideoProcessor.
Section VideoProcessorSpec.
Context `{PF : PyFloat}.

(** The line that a fetched snippet becomes in the merged transcript. *)
Definition snippet_line (e : Snippet) : str :=
  lit "[" ++ format_1f (snippet_start e) ++ lit "s] " ++ snippet_text e.

(** The document that merging a fetched transcript gives. *)
Definition merged_document (transcript : list Snippet) (url : str) : Document :=
  mkDocument (join NEWLINE (map snippet_line transcript))
    (<["source" := VStr url]>
       (<["type" := VStr (lit "youtube_transcript")]> ∅)).

(** Digits, a dot, digits: the numbers that the timestamp pattern reads. *)
Definition decimal (g : str) : Prop :=
  exists d1 d2 : str,
    d1 <> [] /\ d2 <> [] /\
    forallb isdigit d1 = true /\ forallb isdigit d2 = true /\
    g = d1 ++ lit "." ++ d2.

(** An entry whose [start] cannot be formatted with [.1f]. *)
Definition start_is_str (entry : gmap string value) : Prop :=
  exists s, entry !! "start" = Some (VStr s).

(** The ways in which the line of an entry cannot be made, with the error
    of each: a string under [start]; an int under [start], which may be
    the 0 of a missing key, that no float holds; and, once [start] is
    formatted, an int under [text] that cannot be printed. *)
Definition line_fails (entry : gmap string value) (e : exn) : Prop :=
  (start_is_str entry /\
   e = ValueError (lit "Unknown format code 'f' for object of type 'str'")) \/
  (exists z, default (VInt 0) (entry !! "start") = VInt z /\
             float_of_int z = Err e) \/
  (is_ok (format_start (default (VInt 0) (entry !! "start"))) = true /\
   exists z, entry !! "text" = Some (VInt z) /\ int_str z = Err e).

End VideoProcessorSpec.
End VideoProcessorSpec.

Module VectorStoreSpec.
Import VectorStore.
Section VectorStoreSpec.
Context `{PF : PyFloat} `{!Pinecone} `{Config}.

(** The store objects that can exist: those that [__init__] returned, and
    what the methods make of them, [switch_namespace] whether it returns
    or raises. *)
Inductive reachable : t -> Prop :=
| reach_init (namespace : option str) (w : world) (self : t) :
    init namespace w = Ok self -> reachable self
| reach_add_documents (self : t) (documents : list Document) (w : world) :
    reachable self -> reachable (add_documents self documents w).1.2
| reach_get_retriever (self : t) :
    reachable self -> reachable (get_retriever self).2
| reach_retrieve (self : t) (query : str) (k : Z) (w : world) :
    reachable self -> reachable (retrieve self query k w).1.2
| reach_switch_namespace (self : t) (namespace : str) (w : world) :
    reachable self -> reachable (switch_namespace self namespace w).2.

(** Among them, those whose last [switch_namespace], if there was one,
    returned. *)
Inductive settled : t -> Prop :=
| settled_init (namespace : option str) (w : world) (self : t) :
    init namespace w = Ok self -> settled self
| settled_add_documents (self : t) (documents : list Document) (w : world) :
    settled self -> settled (add_documents self documents w).1.2
| settled_get_retriever (self : t) :
    settled self -> settled (get_retriever self).2
| settled_retrieve (self : t) (query : str) (k : Z) (w : world) :
    settled self -> settled (retrieve self query k w).1.2
| settled_switch_namespace (self : t) (namespace : str) (w : world) :
    reachable self -> (switch_namespace self namespace w).1 = Ok tt ->
    settled (switch_namespace self namespace w).2.

(** The handle of the object is one for its own embeddings and index
    name, on some namespace, and a retriever, once there, is the one of
    that handle. *)
Definition attached (self : t) : Prop :=
  (exists ns,
     vectorstore self =
       mkPineconeVectorStore (embedding self) (index_name self) TEXT_KEY
         ns PINECONE_API_KEY) /\
  (retriever self = None \/
   retriever self = Some (as_retriever (vectorstore self))).

(** The same, with the handle on the namespace of the object. *)
Definition coherent (self : t) : Prop :=
  vectorstore self =
    mkPineconeVectorStore (embedding self) (index_name self) TEXT_KEY
      (namespace self) PINECONE_API_KEY /\
  (retriever self = None \/
   retriever self = Some (as_retriever (vectorstore self))).

(** [self'] is [self] but for the retriever, which is either the one of
    [self] or the one of the handle of [self]. *)
Definition same_but_retriever (self self' : t) : Prop :=
  embedding self' = embedding self /\
  index_name self' = index_name self /\
  namespace self' = namespace self /\
  vectorstore self' = vectorstore self /\
  (retriever self' = retriever self \/
   retriever self' = Some (as_retriever (vectorstore self))).

(** The namespace that a call to the backend is addressed to. *)
Definition call_namespace (c : call) : str :=
  match c with
  | CallAddDocuments store _ => pvs_namespace store
  | CallInvoke r _ => pvs_namespace (retriever_store r)
  end.

End VectorStoreSpec.
End VectorStoreSpec.

(** ** Stand-ins for collaborators that fail *)

Module FailingDoubles.

(** Loaders as in [Doubles.finding_loaders], except that the PDF loader
    finds no file. *)
Definition missing_pdf_loaders : @Loaders Doubles.text_float := {|
  WebBaseLoader := @WebBaseLoader _ Doubles.finding_loaders;
  PyPDFLoader file_path :=
    Err (ValueError
           (lit "File path " ++ file_path ++ lit " is not a valid file or url"));
  TextLoader := @TextLoader _ Doubles.finding_loaders;
  Docx2txtLoader := @Docx2txtLoader _ Doubles.finding_loaders;
  UnstructuredHTMLLoader := @UnstructuredHTMLLoader _ Doubles.finding_loaders;
  UnstructuredMarkdownLoader :=
    @UnstructuredMarkdownLoader _ Doubles.finding_loaders;
  CSVLoader := @CSVLoader _ Doubles.finding_loaders;
  json := @json _ Doubles.finding_loaders;
  json_items := @json_items _ Doubles.finding_loaders;
  json_load := @json_load _ Doubles.finding_loaders;
  json_dumps := @json_dumps _ Doubles.finding_loaders;
|}.

(** A configuration without an API key in the environment. *)
Definition keyless_config : Config := {|
  EMBEDDING_MODEL_NAME := lit "sentence-transformers/all-MiniLM-L6-v2";
  PINECONE_INDEX_NAME := lit "studio";
  PINECONE_NAMESPACE := lit "default";
  PINECONE_API_KEY := None;
|}.

(** A service that is up or down: a store can be made only while it is
    up; it holds no documents. *)
Definition fragile_index : @Pinecone Doubles.text_float := {|
  index := bool;
  HuggingFaceEmbeddings_init _ := Ok tt;
  PineconeVectorStore_init _ up :=
    if up then Ok tt else Err (External (lit "PineconeApiException"));
  pinecone_add_documents _ _ up := (Ok tt, up);
  pinecone_invoke _ _ up := (Ok [], up);
|}.

End FailingDoubles.
(** * Properties *)

(** ** Facts about the string operations *)

Module PyFacts.

Lemma startswith_app (p r : str) : startswith (p ++ r) p = true.
Proof.
  induction p as [|c p IH]; [reflexivity|].
  simpl. unfold ascii_eqb. rewrite Ascii.eqb_refl. exact IH.
Qed.

Lemma startswith_inv (s p : str) :
  startswith s p = true -> exists r, s = p ++ r.
Proof.
  revert s. induction p as [|c p IH]; intros s Hs.
  - exists s. reflexivity.
  - destruct s as [|d s]; [discriminate|].
    simpl in Hs. apply andb_prop in Hs as [Hc Hp].
    apply Ascii.eqb_eq in Hc. subst d.
    destruct (IH _ Hp) as [r ->]. exists r. reflexivity.
Qed.

Lemma find_unfold (s sep : str) :
  find s sep =
  if startswith s sep then Some 0
  else match s with
       | [] => None
       | _ :: s' => S <$> find s' sep
       end.
Proof. destruct s; reflexivity. Qed.

(** [find] returns the position of an occurrence, and no occurrence starts
    before it. *)
Lemma find_Some (s sep : str) (i : nat) :
  find s sep = Some i ->
  (exists a b, occurs sep s a b /\ length a = i) /\
  (forall a b, occurs sep s a b -> i <= length a).
Proof.
  revert i. induction s as [|c s IH]; intros i Hf; rewrite find_unfold in Hf.
  - destruct (startswith [] sep) eqn:Hp; [|discriminate].
    injection Hf as <-. split; [|intros; lia].
    apply startswith_inv in Hp as [r Hr]. exists [], r. split; [exact Hr|reflexivity].
  - destruct (startswith (c :: s) sep) eqn:Hp.
    + injection Hf as <-. split; [|intros; lia].
      apply startswith_inv in Hp as [r Hr]. exists [], r. split; [exact Hr|reflexivity].
    + destruct (find s sep) as [j|] eqn:Hj; [|discriminate].
      injection Hf as <-.
      destruct (IH j eq_refl) as [(a & b & Hab & Hlen) Hmin]. split.
      * exists (c :: a), b. split; [unfold occurs in *; simpl; congruence|simpl; lia].
      * intros a' b' Hocc. destruct a' as [|c' a'].
        -- unfold occurs in Hocc. simpl in Hocc.
           rewrite Hocc, startswith_app in Hp. discriminate.
        -- unfold occurs in Hocc. simpl in Hocc. injection Hocc as _ Hocc.
           specialize (Hmin a' b' Hocc). simpl. lia.
Qed.

Lemma find_None (s sep : str) :
  find s sep = None -> forall a b, ~ occurs sep s a b.
Proof.
  induction s as [|c s IH]; intros Hf a b Hocc; rewrite find_unfold in Hf.
  - destruct a; unfold occurs in Hocc; simpl in Hocc.
    + rewrite Hocc, startswith_app in Hf. discriminate.
    + discriminate.
  - destruct (startswith (c :: s) sep) eqn:Hp; [discriminate|].
    destruct (find s sep) eqn:Hj; [discriminate|].
    destruct a as [|c' a]; unfold occurs in Hocc; simpl in Hocc.
    + rewrite Hocc, startswith_app in Hp. discriminate.
    + injection Hocc as _ Hocc. exact (IH eq_refl a b Hocc).
Qed.

Lemma contains_true (sep s : str) :
  contains sep s = true <-> exists a b, occurs sep s a b.
Proof.
  unfold contains. destruct (find s sep) as [i|] eqn:Hf; split.
  - intros _. destruct (find_Some _ _ _ Hf) as [(a & b & Hab & _) _]. eauto.
  - reflexivity.
  - discriminate.
  - intros (a & b & Hab). exfalso. exact (find_None _ _ Hf a b Hab).
Qed.

Lemma contains_false (sep s : str) :
  contains sep s = false <-> forall a b, ~ occurs sep s a b.
Proof.
  split.
  - intros Hc a b Hab.
    assert (contains sep s = true) by (apply contains_true; eauto). congruence.
  - intros Hno. destruct (contains sep s) eqn:Hc; [|reflexivity].
    apply contains_true in Hc as (a & b & Hab). destruct (Hno a b Hab).
Qed.

(** An occurrence found by [find] splits the string at its position. *)
Lemma find_take_drop (s sep : str) (i : nat) :
  find s sep = Some i ->
  s = take i s ++ sep ++ drop (i + length sep) s.
Proof.
  intros Hf. destruct (find_Some _ _ _ Hf) as [(a & b & Hab & Hlen) _].
  unfold occurs in Hab. subst i s.
  rewrite take_app_length, drop_app_add, drop_app_length. reflexivity.
Qed.

Lemma app_eq_prefix (p q x y : str) :
  p ++ x = q ++ y -> length q <= length p -> exists r, p = q ++ r.
Proof.
  revert q. induction p as [|c p IH]; intros q Heq Hlen.
  - destruct q; [exists []; reflexivity|simpl in Hlen; lia].
  - destruct q as [|d q]; [exists (c :: p); reflexivity|].
    simpl in Heq, Hlen. injection Heq as -> Heq.
    destruct (IH q Heq) as [r ->]; [lia|]. exists r. reflexivity.
Qed.

Lemma overlap_free_apart (sep s a b a' b' : str) :
  overlap_free sep = true ->
  occurs sep s a b -> occurs sep s a' b' ->
  length a < length a' -> length a + length sep <= length a'.
Proof.
  intros Hfree Hab Hab' Hlt.
  destruct (Nat.le_gt_cases (length a + length sep) (length a')) as [|Hov];
    [assumption|exfalso].
  set (d := length a' - length a).
  assert (Hd : In d (seq 1 (length sep - 1))) by (apply in_seq; lia).
  unfold overlap_free in Hfree. rewrite forallb_forall in Hfree.
  specialize (Hfree d Hd). apply negb_true_iff in Hfree.
  assert (Hdrop : drop (length a') s = sep ++ b').
  { rewrite Hab'. apply drop_app_length. }
  assert (Hdrop' : drop (length a') s = drop d sep ++ b).
  { rewrite Hab. replace (length a') with (length a + d) by lia.
    rewrite <- drop_drop, drop_app_length.
    rewrite drop_app_le by lia. reflexivity. }
  rewrite Hdrop in Hdrop'.
  destruct (app_eq_prefix sep (drop d sep) b' b Hdrop') as [r Hr].
  { rewrite length_drop. lia. }
  rewrite Hr in Hfree at 1. rewrite startswith_app in Hfree. discriminate.
Qed.

Lemma split_from_nonempty (n : nat) (s sep : str) : split_from n s sep <> [].
Proof. destruct n; simpl; [discriminate|]. destruct (find s sep); discriminate. Qed.

Lemma last_cons {A} (x : A) (l : list A) : l <> [] -> last (x :: l) = last l.
Proof.
  intros Hl. unfold last. simpl.
  destruct (rev l) as [|y r] eqn:Hr; [|reflexivity].
  apply (f_equal (@rev A)) in Hr. rewrite rev_involutive in Hr. contradiction.
Qed.

(** The last piece of a split is what follows the last occurrence of the
    separator. *)
Lemma last_split_from (sep : str) :
  overlap_free sep = true -> sep <> [] ->
  forall (n : nat) (s pre rest : str),
    length pre < n ->
    occurs sep s pre rest ->
    (forall a b, occurs sep s a b -> length a <= length pre) ->
    last (split_from n s sep) = Ok rest.
Proof.
  intros Hfree Hsep. induction n as [|n IH]; intros s pre rest Hn Hocc Hlast; [lia|].
  simpl. destruct (find s sep) as [i|] eqn:Hf.
  2:{ destruct (find_None _ _ Hf _ _ Hocc). }
  rewrite last_cons by apply split_from_nonempty.
  destruct (find_Some _ _ _ Hf) as [(a & b & Hab & Hlen) Hmin].
  specialize (Hmin _ _ Hocc).
  destruct (Nat.eq_dec i (length pre)) as [Heq|Hne].
  - (* the occurrence found is the last one *)
    assert (Hrest : drop (i + length sep) s = rest).
    { rewrite Hocc, Heq, drop_app_add, drop_app_length. reflexivity. }
    rewrite Hrest. destruct n as [|n]; [reflexivity|]. simpl.
    destruct (find rest sep) as [j|] eqn:Hj; [exfalso|reflexivity].
    destruct (find_Some _ _ _ Hj) as [(a' & b' & Hab' & _) _].
    assert (Hlate : occurs sep s (pre ++ sep ++ a') b').
    { unfold occurs in *. rewrite Hocc, Hab'.
      rewrite <- !app_assoc. reflexivity. }
    specialize (Hlast _ _ Hlate). rewrite !length_app in Hlast.
    destruct sep; [contradiction|simpl in Hlast; lia].
  - (* an earlier occurrence: it ends before the last one starts *)
    assert (Hend : length a + length sep <= length pre).
    { apply (overlap_free_apart sep s a b pre rest); auto. lia. }
    subst i.
    set (pre' := drop (length a + length sep) pre).
    assert (Hs' : drop (length a + length sep) s = pre' ++ sep ++ rest).
    { rewrite Hocc. rewrite drop_app_le by lia. reflexivity. }
    rewrite Hs'. apply (IH _ pre' rest).
    + unfold pre'. rewrite length_drop.
      destruct sep; [contradiction|simpl in *; lia].
    + reflexivity.
    + intros a' b' Hab'. unfold occurs in Hab'.
      assert (Hlate : occurs sep s (take (length a + length sep) pre ++ a') b').
      { unfold occurs. rewrite <- app_assoc, <- Hab'. unfold pre'.
        rewrite app_assoc, take_drop. exact Hocc. }
      specialize (Hlast _ _ Hlate).
      rewrite length_app, length_take in Hlast.
      unfold pre'. rewrite length_drop. lia.
Qed.

Lemma last_split (sep s pre rest : str) :
  overlap_free sep = true -> sep <> [] ->
  occurs sep s pre rest ->
  (forall a b, occurs sep s a b -> length a <= length pre) ->
  last (split s sep) = Ok rest.
Proof.
  intros Hfree Hsep Hocc Hlast. unfold split.
  apply (last_split_from sep Hfree Hsep _ s pre rest); auto.
  rewrite Hocc, !length_app. destruct sep; [contradiction|simpl; lia].
Qed.

(** More rounds than the string has characters change nothing: [split]
    never stops for want of rounds. *)
Lemma split_from_enough (sep : str) :
  sep <> [] ->
  forall (n : nat) (s : str),
    length s <= n -> split_from n s sep = split_from (length s) s sep.
Proof.
  intros Hsep n. induction n as [n IH] using lt_wf_ind. intros s Hn.
  destruct n as [|n].
  - destruct s; [reflexivity|simpl in Hn; lia].
  - destruct (length s) as [|m] eqn:Hlen.
    + destruct s; [|discriminate]. simpl.
      destruct sep; [contradiction|reflexivity].
    + simpl. destruct (find s sep) as [i|] eqn:Hf; [|reflexivity].
      assert (Hshort : length (drop (i + length sep) s) <= m).
      { rewrite length_drop. destruct sep; [contradiction|simpl; lia]. }
      f_equal.
      rewrite (IH n) by lia. rewrite (IH m) by lia. reflexivity.
Qed.

(** The first piece of a split is what precedes the first occurrence of
    the separator, or the whole string when there is none. *)
Lemma first_split (s sep : str) :
  first (split s sep) =
  Ok (match find s sep with Some i => take i s | None => s end).
Proof.
  unfold split. destruct (length s) as [|n] eqn:Hlen.
  - destruct s; [|discriminate]. simpl. destruct (startswith [] sep); reflexivity.
  - simpl. destruct (find s sep); reflexivity.
Qed.

Lemma first_split_up_to (s sep : str) :
  sep <> [] ->
  exists piece, first (split s sep) = Ok piece /\ up_to_first sep s piece.
Proof.
  intros Hsep. rewrite first_split.
  destruct (find s sep) as [i|] eqn:Hf; eexists; (split; [reflexivity|]).
  - split.
    + left. exists (drop (i + length sep) s). apply find_take_drop, Hf.
    + intros a b Hab.
      destruct (find_Some _ _ _ Hf) as [(a0 & b0 & Hab0 & Hlen) Hmin].
      assert (Hearly : occurs sep s a (b ++ drop i s)).
      { unfold occurs in *. rewrite <- (take_drop i s) at 1.
        rewrite Hab, <- !app_assoc. reflexivity. }
      specialize (Hmin _ _ Hearly).
      apply (f_equal (@length ascii)) in Hab.
      rewrite !length_app, length_take in Hab.
      destruct sep; [contradiction|simpl in Hab; lia].
  - split; [right; reflexivity|]. apply find_None, Hf.
Qed.

Lemma lstrip_spec (s : str) :
  (exists l, s = l ++ lstrip s /\ forallb isspace l = true) /\
  (forall c t', lstrip s = c :: t' -> isspace c = false).
Proof.
  induction s as [|c s [(l & Hl & Hsp) Hhd]]; simpl.
  - split; [exists []; auto|discriminate].
  - destruct (isspace c) eqn:Hc.
    + split; [|exact Hhd]. exists (c :: l). simpl. rewrite Hc, Hsp.
      split; [f_equal; exact Hl|reflexivity].
    + split; [exists []; auto|]. intros c' t' [= <- _]. exact Hc.
Qed.

Lemma forallb_rev {A} (f : A -> bool) (l : list A) :
  forallb f l = true -> forallb f (rev l) = true.
Proof.
  rewrite !forallb_forall. intros Hl x Hx. apply Hl, in_rev, Hx.
Qed.

Lemma rstrip_spec (s : str) :
  (exists r, s = rstrip s ++ r /\ forallb isspace r = true) /\
  (forall c t', rstrip s = t' ++ [c] -> isspace c = false).
Proof.
  unfold rstrip. destruct (lstrip_spec (rev s)) as [(l & Hl & Hsp) Hhd]. split.
  - exists (rev l). split; [|apply forallb_rev, Hsp].
    rewrite <- rev_app_distr, <- Hl, rev_involutive. reflexivity.
  - intros c t' Ht. apply (Hhd c (rev t')).
    apply (f_equal (@rev ascii)) in Ht.
    rewrite rev_involutive, rev_unit in Ht. exact Ht.
Qed.

Lemma strip_spec (s : str) : stripped s (strip s).
Proof.
  unfold strip.
  destruct (lstrip_spec s) as [(l & Hl & Hlsp) Hhd].
  destruct (rstrip_spec (lstrip s)) as [(r & Hr & Hrsp) Hlast].
  split; [|split; [|exact Hlast]].
  - exists l, r. rewrite <- Hr. auto.
  - intros c t' Ht. rewrite Ht in Hr. simpl in Hr.
    apply (Hhd c (t' ++ r)). exact Hr.
Qed.

End PyFacts.

(** ** extract_video_id *)

Module VideoIdFacts.
Import PyFacts.

Lemma last_occurrence_exists (sep s : str) :
  (exists a b, occurs sep s a b) ->
  exists pre rest,
    occurs sep s pre rest /\
    (forall a b, occurs sep s a b -> length a <= length pre).
Proof.
  induction s as [|c s IH]; intros (a & b & Hab).
  - exists [], b. destruct a; [|discriminate]. split; [exact Hab|].
    intros a' b' Hab'. destruct a'; [simpl; lia|discriminate].
  - destruct (contains sep s) eqn:Hc.
    + apply contains_true in Hc. destruct (IH Hc) as (pre & rest & Ho & Hmax).
      exists (c :: pre), rest. split.
      * unfold occurs in *. simpl. congruence.
      * intros a' b' Hab'. destruct a' as [|c' a']; [simpl; lia|].
        unfold occurs in Hab'. simpl in Hab'. injection Hab' as _ Hab'.
        specialize (Hmax _ _ Hab'). simpl. lia.
    + assert (Hno := proj1 (contains_false sep s) Hc).
      destruct a as [|c' a].
      * exists [], b. split; [exact Hab|].
        intros a' b' Hab'. destruct a' as [|c'' a']; [simpl; lia|].
        unfold occurs in Hab'. simpl in Hab'. injection Hab' as _ Hab'.
        destruct (Hno _ _ Hab').
      * unfold occurs in Hab. simpl in Hab. injection Hab as _ Hab.
        destruct (Hno _ _ Hab).
Qed.

Lemma WATCH_overlap_free : overlap_free WATCH = true.
Proof. vm_compute. reflexivity. Qed.

(** The branch taken for a link with [watch?v=] in it. *)
Lemma extract_video_id_watch_branch (url pre rest : str) :
  occurs WATCH url pre rest ->
  (forall a b, occurs WATCH url a b -> length a <= length pre) ->
  exists vid,
    up_to_first AMP rest vid /\ extract_video_id url = Ok (strip vid).
Proof.
  intros Hocc Hlast. unfold extract_video_id.
  assert (Hc : contains WATCH url = true) by (apply contains_true; eauto).
  rewrite Hc.
  rewrite (last_split WATCH url pre rest WATCH_overlap_free
             ltac:(discriminate) Hocc Hlast).
  simpl. destruct (first_split_up_to rest AMP) as (vid & Hfirst & Hup);
    [discriminate|].
  exists vid. split; [exact Hup|]. rewrite Hfirst. reflexivity.
Qed.

(** C10: every string with [watch?v=] in it gets an id, never an error:
    the text after the last [watch?v=], cut before its first [&], with the
    white space around it removed; the scheme and the host play no part
    ([https://example.com/watch?v=x] gives [x]), and the rule applies also
    when [youtu.be/] occurs in the string. *)
Theorem extract_video_id_watch_rule :
  (forall url : str,
     (exists a b, occurs WATCH url a b) ->
     exists pre rest vid id,
       occurs WATCH url pre rest /\
       (forall a b, occurs WATCH url a b -> length a <= length pre) /\
       up_to_first AMP rest vid /\
       stripped vid id /\
       extract_video_id url = Ok id) /\
  extract_video_id (lit "https://example.com/watch?v=x") = Ok (lit "x") /\
  (exists a b, occurs YOUTU_BE (lit "https://youtu.be/watch?v=abc&t=1") a b) /\
  extract_video_id (lit "https://youtu.be/watch?v=abc&t=1") = Ok (lit "abc").
Proof.
  split; [|split; [|split]]; [| vm_compute; reflexivity | | vm_compute; reflexivity].
  - intros url Hex.
    destruct (last_occurrence_exists WATCH url Hex) as (pre & rest & Hocc & Hlast).
    destruct (extract_video_id_watch_branch url pre rest Hocc Hlast)
      as (vid & Hup & Hid).
    exists pre, rest, vid, (strip vid). auto using strip_spec.
  - exists (lit "https://"), (lit "watch?v=abc&t=1"). reflexivity.
Qed.

Lemma extract_video_id_watch_rule_witness :
  let url := lit " youtu.be/watch?v=watch?v= a b &c&d" in
  exists pre rest vid id,
    occurs WATCH url pre rest /\
    (forall a b, occurs WATCH url a b -> length a <= length pre) /\
    up_to_first AMP rest vid /\
    stripped vid id /\
    extract_video_id url = Ok id.
Proof.
  intros url. apply (proj1 extract_video_id_watch_rule).
  exists (lit " youtu.be/"), (lit "watch?v= a b &c&d"). reflexivity.
Defined.

Example watch_rule_run :
  extract_video_id (lit " youtu.be/watch?v=watch?v= a b &c&d") = Ok (lit "a b").
Proof. vm_compute. reflexivity. Qed.

End VideoIdFacts.

(** ** load_documents *)

Module DocumentProcessorFacts.
Import DocumentProcessor.

Section Loading.
Context `{PF : PyFloat} `{!Loaders} `{PathLib} `{TextSplitter}.

(** The keys of [extension_loaders] are the supported extensions. *)
Lemma extension_loaders_keys (ext : string) :
  extension_loaders !! ext = None <-> ~ In ext supported_extensions.
Proof.
  rewrite <- not_elem_of_dom.
  replace (dom extension_loaders)
    with (list_to_set supported_extensions : gset string)
    by (unfold extension_loaders; rewrite dom_list_to_map_L; reflexivity).
  rewrite elem_of_list_to_set, list_elem_of_In. reflexivity.
Qed.

Lemma load_documents_from_cons (docs : list Document) (src_str : str)
    (rest : list str) :
  load_documents_from docs (src_str :: rest) =
  bind (load_source src_str) (fun new => load_documents_from (docs ++ new) rest).
Proof.
  unfold load_source. simpl. destruct (is_url src_str); [reflexivity|].
  destruct (extension_loaders !! suffix_of src_str); reflexivity.
Qed.

Lemma load_source_unsupported (src_str : str) :
  unsupported src_str ->
  load_source src_str = Err (ValueError (unsupported_message src_str)).
Proof. intros [Hurl Hext]. unfold load_source. rewrite Hurl, Hext. reflexivity. Qed.

(** A list with an unsupported source never yields documents, whatever
    has been collected before. *)
Lemma load_documents_from_fails (sources : list str) :
  (exists src_str, In src_str sources /\ unsupported src_str) ->
  forall docs, exists e, load_documents_from docs sources = Err e.
Proof.
  induction sources as [|s rest IH]; intros (bad & Hin & Hbad) docs.
  - destruct Hin.
  - rewrite load_documents_from_cons.
    destruct Hin as [-> | Hin].
    + rewrite (load_source_unsupported _ Hbad). simpl. eauto.
    + destruct (load_source s) as [new|e]; simpl; [|eauto].
      apply IH. eauto.
Qed.

(** When the sources before the first unsupported one load, the error is
    the one raised for that source. *)
Lemma load_documents_from_names (before : list str) (bad : str)
    (after : list str) :
  unsupported bad ->
  (forall s, In s before -> is_ok (load_source s) = true) ->
  forall docs,
    load_documents_from docs (before ++ bad :: after) =
    Err (ValueError (unsupported_message bad)).
Proof.
  intros Hbad. induction before as [|s before IH]; intros Hok docs.
  - simpl app. rewrite load_documents_from_cons, (load_source_unsupported _ Hbad).
    reflexivity.
  - simpl app. rewrite load_documents_from_cons.
    assert (Hs := Hok s (or_introl eq_refl)).
    destruct (load_source s) as [new|e]; [|discriminate]. simpl.
    apply IH. intros s' Hs'. apply Hok. right. exact Hs'.
Qed.

(** The error of a batch is the error of its first source that fails. *)
Lemma load_documents_from_first_failure (before : list str) (s : str)
    (after : list str) (e : exn) :
  (forall b, In b before -> is_ok (load_source b) = true) ->
  load_source s = Err e ->
  forall docs, load_documents_from docs (before ++ s :: after) = Err e.
Proof.
  intros Hok Hs. induction before as [|b before IH]; intros docs.
  - simpl app. rewrite load_documents_from_cons, Hs. reflexivity.
  - simpl app. rewrite load_documents_from_cons.
    assert (Hb := Hok b (or_introl eq_refl)).
    destruct (load_source b) as [new|e']; [|discriminate]. simpl.
    apply IH. intros b' Hb'. apply Hok. right. exact Hb'.
Qed.

(** C5, as amended: a source list with an unsupported source makes
    [load_documents] raise, so that no document comes back, not even from
    the sources that were loaded before the offending one.  The error is
    the unsupported source error whose message carries that source, the
    first unsupported one, when the sources before it load; when one of
    them fails to load, the error of the first that fails is raised
    instead. *)
Theorem load_documents_fail_fast (sources : list str) :
  (exists src_str, In src_str sources /\ unsupported src_str) ->
  (exists e, load_documents sources = Err e) /\
  (forall before bad after,
     sources = before ++ bad :: after ->
     unsupported bad ->
     (forall s, In s before -> is_ok (load_source s) = true) ->
     load_documents sources = Err (ValueError (unsupported_message bad)) /\
     exists tail,
       unsupported_message bad = lit "Unsupported source type: " ++ bad ++ tail) /\
  (forall before s after e,
     sources = before ++ s :: after ->
     (forall b, In b before -> is_ok (load_source b) = true) ->
     load_source s = Err e ->
     load_documents sources = Err e).
Proof.
  intros Hex. split; [|split].
  - apply load_documents_from_fails, Hex.
  - intros before bad after -> Hbad Hok. split.
    + apply load_documents_from_names; assumption.
    + eexists. reflexivity.
  - intros before s after e -> Hok Hs.
    apply load_documents_from_first_failure; assumption.
Qed.

End Loading.

Lemma load_documents_fail_fast_witness :
  let sources := [lit "a.pdf"; lit "bad.xyz"] in
  @load_source _ Doubles.finding_loaders Doubles.plain_paths (lit "a.pdf")
  = Ok [Doubles.doc (lit "content of a.pdf")
          (<["source" := VStr (lit "a.pdf")]> {["page" := VInt 0]})] /\
  @load_documents _ Doubles.finding_loaders Doubles.plain_paths sources
  = Err (ValueError (lit "Unsupported source type: bad.xyz. Supported: URL, .pdf, .txt, .docx, .csv, .json, .md, .html, .py")).
Proof.
  intros sources. split; [vm_compute; reflexivity|].
  assert (Hbad : @unsupported _ Doubles.finding_loaders Doubles.plain_paths
                   (lit "bad.xyz")).
  { split; vm_compute; reflexivity. }
  refine (proj1 (proj1 (proj2 (@load_documents_fail_fast _ Doubles.finding_loaders
                   Doubles.plain_paths sources _))
                   [lit "a.pdf"] (lit "bad.xyz") [] eq_refl Hbad _)).
  - exists (lit "bad.xyz"). split; [right; left; reflexivity|exact Hbad].
  - intros s [<- | []]. vm_compute. reflexivity.
Defined.

(** The claim as it was stated fails when a source before the unsupported
    one does not load: the loader's error is raised, not the unsupported
    source error. *)
Lemma load_documents_fail_fast_counterexample :
  let sources := [lit "missing.pdf"; lit "bad.xyz"] in
  (In (lit "bad.xyz") sources /\
   @unsupported _ FailingDoubles.missing_pdf_loaders Doubles.plain_paths
     (lit "bad.xyz")) /\
  @load_documents _ FailingDoubles.missing_pdf_loaders Doubles.plain_paths sources
  = Err (ValueError (lit "File path missing.pdf is not a valid file or url")) /\
  @load_documents _ FailingDoubles.missing_pdf_loaders Doubles.plain_paths sources
  <> Err (ValueError (unsupported_message (lit "bad.xyz"))).
Proof.
  intros sources. split; [|split].
  - split; [right; left; reflexivity|]. split; vm_compute; reflexivity.
  - vm_compute. reflexivity.
  - vm_compute. discriminate.
Qed.

(** *** Construction and splitting *)

Section Construction.
Context `{PF : PyFloat} `{!Loaders} `{PathLib} `{TextSplitter}.

(** The constructor hands its two parameters, as they are, to the
    splitter's constructor and keeps them; it raises when that one does. *)
Lemma init_passes_parameters (chunk_size chunk_overlap : Z) (self : t) :
  init chunk_size chunk_overlap = Ok self ->
  DocumentProcessor.chunk_size self = chunk_size /\
  DocumentProcessor.chunk_overlap self = chunk_overlap /\
  RecursiveCharacterTextSplitter chunk_size chunk_overlap
  = Ok (the_splitter self).
Proof.
  unfold init.
  destruct (RecursiveCharacterTextSplitter chunk_size chunk_overlap) as [sp|e];
    simpl; [|discriminate].
  intros [= <-]. auto.
Qed.

Lemma init_raises (chunk_size chunk_overlap : Z) (e : exn) :
  init chunk_size chunk_overlap = Err e <->
  RecursiveCharacterTextSplitter chunk_size chunk_overlap = Err e.
Proof.
  unfold init.
  destruct (RecursiveCharacterTextSplitter chunk_size chunk_overlap) as [sp|e'];
    simpl; split; congruence.
Qed.

(** Every chunk is a piece of one document's content and carries that
    document's metadata. *)
Lemma split_documents_chunks (self : t) (documents : list Document)
    (ch : Document) :
  In ch (split_documents self documents) <->
  exists d, In d documents /\
            In (page_content ch) (split_text (the_splitter self) (page_content d)) /\
            metadata ch = metadata d.
Proof.
  unfold split_documents, splitter_split_documents.
  rewrite in_flat_map. split.
  - intros (d & Hd & Hch). apply in_map_iff in Hch as (c & <- & Hc).
    exists d. auto.
  - intros (d & Hd & Hc & Hm). exists d. split; [exact Hd|].
    apply in_map_iff. exists (page_content ch). split; [|exact Hc].
    destruct ch. simpl in *. congruence.
Qed.

End Construction.

(** *** The format handlers *)

Section Handlers.
Context `{PF : PyFloat} `{!Loaders}.

Lemma setdefault_lookup (k : string) (v : value) (d : gmap string value) :
  setdefault k v d !! k = Some (default v (d !! k)).
Proof.
  unfold setdefault. destruct (d !! k) as [x|] eqn:Hk; simpl.
  - exact Hk.
  - apply lookup_insert_eq.
Qed.

Lemma setdefault_lookup_ne (k k' : string) (v : value) (d : gmap string value) :
  k <> k' -> setdefault k v d !! k' = d !! k'.
Proof.
  intros Hne. unfold setdefault. destruct (d !! k); [reflexivity|].
  apply lookup_insert_ne, Hne.
Qed.

(** Every handler's loop leaves a source in the metadata: the parser's
    own, or else the path as given. *)
Lemma ensure_source_source (file_path : str) (d : Document) :
  metadata (ensure_source file_path d) !! "source" =
  Some (default (VStr file_path) (metadata d !! "source")).
Proof. apply setdefault_lookup. Qed.

Lemma ensure_source_file_type (file_path : str) (d : Document) :
  metadata (ensure_source file_path d) !! "file_type" =
  metadata d !! "file_type".
Proof. apply setdefault_lookup_ne. discriminate. Qed.

Lemma ensure_source_and_type_source (file_path : str) (tag : string)
    (d : Document) :
  metadata (ensure_source_and_type file_path tag d) !! "source" =
  Some (default (VStr file_path) (metadata d !! "source")).
Proof.
  unfold ensure_source_and_type. simpl.
  rewrite lookup_insert_ne by discriminate. apply setdefault_lookup.
Qed.

Lemma ensure_source_and_type_file_type (file_path : str) (tag : string)
    (d : Document) :
  metadata (ensure_source_and_type file_path tag d) !! "file_type" =
  Some (VStr (lit tag)).
Proof. apply lookup_insert_eq. Qed.

(** The docx, csv, json, markdown, html and python handlers give every
    document a source and their own tag. *)
Lemma tagging_handlers_tag (handler : str -> result (list Document))
    (tag : string) (file_path : str) (docs : list Document) (d : Document) :
  In (handler, tag) tagging_handlers ->
  handler file_path = Ok docs -> In d docs ->
  is_Some (metadata d !! "source") /\
  metadata d !! "file_type" = Some (VStr (lit tag)).
Proof.
  intros Hin Hload Hd. simpl in Hin.
  destruct Hin as [Hh|[Hh|[Hh|[Hh|[Hh|[Hh|[]]]]]]];
    injection Hh as <- <-;
    [ unfold load_from_docx in Hload; destruct (Docx2txtLoader file_path)
    | unfold load_from_csv in Hload; destruct (CSVLoader file_path)
    | unfold load_from_json in Hload; destruct (json_load file_path)
    | unfold load_from_markdown in Hload;
      destruct (UnstructuredMarkdownLoader file_path)
    | unfold load_from_html in Hload;
      destruct (UnstructuredHTMLLoader file_path)
    | unfold load_from_python in Hload; destruct (TextLoader file_path) ];
    try discriminate; simpl in Hload; injection Hload as <-.
  3:{ destruct Hd as [<- | []]. simpl. split; [|reflexivity].
      rewrite lookup_insert_eq. eexists. reflexivity. }
  all: apply in_map_iff in Hd as (d0 & <- & _);
    rewrite ensure_source_and_type_source, ensure_source_and_type_file_type;
    split; [eexists; reflexivity|reflexivity].
Qed.

(** The pdf and txt handlers give every document a source as well. *)
Lemma pdf_txt_handlers_source (file_path : str) (docs : list Document)
    (d : Document) :
  load_from_pdf file_path = Ok docs \/ load_from_txt file_path = Ok docs ->
  In d docs -> is_Some (metadata d !! "source").
Proof.
  unfold load_from_pdf, load_from_txt. intros [Hload|Hload] Hd;
    [destruct (PyPDFLoader file_path)|destruct (TextLoader file_path)];
    try discriminate; simpl in Hload; injection Hload as <-;
    apply in_map_iff in Hd as (d0 & <- & _);
    rewrite ensure_source_source; eexists; reflexivity.
Qed.

End Handlers.

(** C6: the pdf and txt handlers never write [file_type]: their loop
    leaves that entry as the parser left it, so a document that the parser
    did not classify comes back without the key, where the docx, csv,
    json, markdown, html and python handlers set their tag. *)
Theorem pdf_txt_handlers_leave_file_type :
  (forall (PF : PyFloat) (file_path : str) (d : Document),
     metadata (ensure_source file_path d) !! "file_type" =
     metadata d !! "file_type") /\
  (exists d,
     @load_from_pdf _ Doubles.finding_loaders (lit "report.pdf") = Ok [d] /\
     metadata d !! "source" = Some (VStr (lit "report.pdf")) /\
     metadata d !! "file_type" = None) /\
  (exists d,
     @load_from_txt _ Doubles.finding_loaders (lit "notes.txt") = Ok [d] /\
     metadata d !! "source" = Some (VStr (lit "notes.txt")) /\
     metadata d !! "file_type" = None) /\
  (exists d,
     @load_from_python _ Doubles.finding_loaders (lit "notes.py") = Ok [d] /\
     metadata d !! "file_type" = Some (VStr (lit "python"))).
Proof.
  split; [intros; apply ensure_source_file_type|].
  repeat split; eexists; (split; [reflexivity|]);
    repeat split; vm_compute; reflexivity.
Qed.

End DocumentProcessorFacts.

(** ** The transcript pipeline *)

Module VideoProcessorFacts.
Import PyFacts VideoIdFacts VideoProcessor.

(** *** The timestamp pattern *)

Lemma digits_spec (s : str) :
  s = (digits s).1 ++ (digits s).2 /\
  forallb isdigit (digits s).1 = true /\
  (forall c r, (digits s).2 = c :: r -> isdigit c = false).
Proof.
  induction s as [|c s (IH1 & IH2 & IH3)]; simpl.
  - repeat split. discriminate.
  - destruct (isdigit c) eqn:Hc.
    + destruct (digits s) as [d r]. simpl in *. rewrite Hc, IH2.
      repeat split; [congruence|exact IH3].
    + simpl. repeat split. intros c' r [= <- _]. exact Hc.
Qed.

(** A run of digits followed by something else is read off whole. *)
Lemma digits_app (d rest : str) :
  forallb isdigit d = true ->
  (forall c r, rest = c :: r -> isdigit c = false) ->
  digits (d ++ rest) = (d, rest).
Proof.
  intros Hd Hrest. induction d as [|c d IH]; simpl.
  - destruct rest as [|c r]; [reflexivity|].
    simpl. rewrite (Hrest c r eq_refl). reflexivity.
  - simpl in Hd. apply andb_prop in Hd as [Hc Hd].
    rewrite Hc, (IH Hd). reflexivity.
Qed.

Lemma expect_Some (c : ascii) (s r : str) :
  expect c s = Some r <-> s = c :: r.
Proof.
  unfold expect. destruct s as [|d s]; [split; discriminate|].
  unfold ascii_eqb. destruct (Ascii.eqb c d) eqn:Hcd.
  - apply Ascii.eqb_eq in Hcd. subst d. split; congruence.
  - apply Ascii.eqb_neq in Hcd. split; [discriminate|congruence].
Qed.

Lemma expect_cons (c : ascii) (s : str) : expect c (c :: s) = Some s.
Proof. apply expect_Some. reflexivity. Qed.

Lemma nonempty_Some (d x : str) : nonempty d = Some x <-> d <> [] /\ x = d.
Proof.
  destruct d; simpl; split.
  - discriminate.
  - intros [Hd _]. contradiction.
  - intros [= <-]. split; [discriminate|reflexivity].
  - intros [_ ->]. reflexivity.
Qed.

(** The matcher accepts every text that starts with a marker ... *)
Lemma match_timestamp_complete (m g post : str) :
  is_marker m g -> match_timestamp (m ++ post) = Some g.
Proof.
  intros (d1 & d2 & Hd1 & Hd2 & Hdig1 & Hdig2 & -> & ->).
  unfold match_timestamp. simpl. rewrite <- !app_assoc. simpl.
  rewrite digits_app; [|exact Hdig1|intros c r [= <- _]; reflexivity].
  destruct d1 as [|c1 d1]; [contradiction|]. simpl.
  rewrite digits_app; [|exact Hdig2|intros c r [= <- _]; reflexivity].
  destruct d2 as [|c2 d2]; [contradiction|]. reflexivity.
Qed.

(** ... and nothing else. *)
Lemma match_timestamp_sound (s g : str) :
  match_timestamp s = Some g ->
  exists m post, s = m ++ post /\ is_marker m g.
Proof.
  unfold match_timestamp. intros Hm.
  destruct (expect "[" s) as [r0|] eqn:H0; [|discriminate]. simpl in Hm.
  apply expect_Some in H0.
  destruct (digits_spec r0) as (Hr0 & Hdig1 & _).
  destruct (digits r0) as [d1 r1]. simpl in *.
  destruct (nonempty d1) as [d1'|] eqn:Hn1; [|discriminate]. simpl in Hm.
  apply nonempty_Some in Hn1 as [Hd1 ->].
  destruct (expect "." r1) as [r2|] eqn:H1; [|discriminate]. simpl in Hm.
  apply expect_Some in H1.
  destruct (digits_spec r2) as (Hr2 & Hdig2 & _).
  destruct (digits r2) as [d2 r3]. simpl in *.
  destruct (nonempty d2) as [d2'|] eqn:Hn2; [|discriminate]. simpl in Hm.
  apply nonempty_Some in Hn2 as [Hd2 ->].
  destruct (expect "s" r3) as [r4|] eqn:H2; [|discriminate]. simpl in Hm.
  apply expect_Some in H2.
  destruct (expect "]" r4) as [r5|] eqn:H3; [|discriminate]. simpl in Hm.
  apply expect_Some in H3. injection Hm as <-.
  exists (lit "[" ++ (d1 ++ lit "." ++ d2) ++ lit "s]"), r5. split.
  - subst s r0 r1 r2 r3 r4. simpl. rewrite <- !app_assoc. simpl.
    reflexivity.
  - exists d1, d2. auto 10.
Qed.

Lemma re_search_unfold (s : str) :
  re_search s =
  match match_timestamp s with
  | Some g => Some g
  | None => match s with [] => None | _ :: s' => re_search s' end
  end.
Proof. destruct s; reflexivity. Qed.

Lemma marker_at_zero (s g : str) :
  marker_at s 0 g <-> exists m post, s = m ++ post /\ is_marker m g.
Proof.
  split.
  - intros (pre & m & post & -> & Hlen & Hm).
    destruct pre; [|discriminate]. exists m, post. auto.
  - intros (m & post & -> & Hm). exists [], m, post. auto.
Qed.

Lemma marker_at_succ (c : ascii) (s : str) (i : nat) (g : str) :
  marker_at (c :: s) (S i) g <-> marker_at s i g.
Proof.
  split.
  - intros (pre & m & post & Hs & Hlen & Hm).
    destruct pre as [|c' pre]; [discriminate|].
    simpl in Hs, Hlen. injection Hs as _ ->. exists pre, m, post. auto.
  - intros (pre & m & post & -> & Hlen & Hm).
    exists (c :: pre), m, post. simpl. auto.
Qed.

Lemma marker_at_nil (i : nat) (g : str) : ~ marker_at [] i g.
Proof.
  intros (pre & m & post & Hs & _ & (d1 & d2 & _ & _ & _ & _ & _ & ->)).
  destruct pre; discriminate.
Qed.

(** [re.search] finds the first marker ... *)
Lemma re_search_first (s : str) (i : nat) (g : str) :
  first_marker s i g -> re_search s = Some g.
Proof.
  revert i. induction s as [|c s IH]; intros i [Hat Hmin].
  - destruct (marker_at_nil _ _ Hat).
  - rewrite re_search_unfold. destruct i as [|i].
    + apply marker_at_zero in Hat as (m & post & -> & Hm).
      rewrite (match_timestamp_complete _ _ _ Hm). reflexivity.
    + destruct (match_timestamp (c :: s)) as [g'|] eqn:Hm.
      * exfalso. apply (Hmin 0 g'); [lia|].
        apply marker_at_zero, match_timestamp_sound, Hm.
      * apply (IH i). split; [apply (marker_at_succ c), Hat|].
        intros j g' Hj Hat'. apply (Hmin (S j) g'); [lia|].
        apply marker_at_succ, Hat'.
Qed.

(** ... and nothing when there is none. *)
Lemma re_search_none (s : str) :
  (forall i g, ~ marker_at s i g) -> re_search s = None.
Proof.
  induction s as [|c s IH]; intros Hno; rewrite re_search_unfold.
  - destruct (match_timestamp []) as [g|] eqn:Hm; [|reflexivity].
    destruct (Hno 0 g). apply marker_at_zero, match_timestamp_sound, Hm.
  - destruct (match_timestamp (c :: s)) as [g|] eqn:Hm.
    + destruct (Hno 0 g). apply marker_at_zero, match_timestamp_sound, Hm.
    + apply IH. intros i g Hat. apply (Hno (S i) g), marker_at_succ, Hat.
Qed.

Lemma re_search_Some_inv (s g : str) :
  re_search s = Some g -> exists i, first_marker s i g.
Proof.
  induction s as [|c s IH]; rewrite re_search_unfold; intros Hs.
  - destruct (match_timestamp []) as [g'|] eqn:Hm; [|discriminate].
    injection Hs as ->. exists 0. split; [|intros; lia].
    apply marker_at_zero, match_timestamp_sound, Hm.
  - destruct (match_timestamp (c :: s)) as [g'|] eqn:Hm.
    + injection Hs as ->. exists 0. split; [|intros; lia].
      apply marker_at_zero, match_timestamp_sound, Hm.
    + destruct (IH Hs) as (i & Hat & Hmin). exists (S i). split.
      * apply marker_at_succ, Hat.
      * intros j g' Hj Hat'. destruct j as [|j].
        -- apply marker_at_zero in Hat' as (m & post & Heq & Hmk).
           rewrite Heq, (match_timestamp_complete _ _ _ Hmk) in Hm.
           discriminate.
        -- apply marker_at_succ in Hat'. apply (Hmin j g'); [lia|exact Hat'].
Qed.

Lemma re_search_None_inv (s : str) :
  re_search s = None -> forall i g, ~ marker_at s i g.
Proof.
  intros Hs i g Hat. revert i Hat.
  induction s as [|c s IH]; intros i Hat.
  - destruct (marker_at_nil _ _ Hat).
  - rewrite re_search_unfold in Hs.
    destruct (match_timestamp (c :: s)) as [g'|] eqn:Hm; [discriminate|].
    destruct i as [|i].
    + apply marker_at_zero in Hat as (m & post & Heq & Hmk).
      rewrite Heq, (match_timestamp_complete _ _ _ Hmk) in Hm. discriminate.
    + apply marker_at_succ in Hat. exact (IH Hs i Hat).
Qed.

(** A text with a marker has a first one. *)
Lemma first_marker_exists (s : str) :
  (exists i g, marker_at s i g) -> exists i g, first_marker s i g.
Proof.
  intros (i & g & Hat). destruct (re_search s) as [g'|] eqn:Hs.
  - destruct (re_search_Some_inv _ _ Hs) as (i' & Hfirst). eauto.
  - destruct (re_search_None_inv _ Hs i g Hat).
Qed.

(** *** Annotating the chunks *)

Section Pipeline.
Context `{PF : PyFloat} `{!TranscriptApi} `{TextSplitter}.

Lemma annotate_content (ch : Document) :
  page_content (annotate ch) = page_content ch.
Proof. unfold annotate. destruct (re_search (page_content ch)); reflexivity. Qed.

Lemma annotate_first (ch : Document) (i : nat) (g : str) :
  first_marker (page_content ch) i g ->
  annotate ch =
  mkDocument (page_content ch)
    (<["timestamp_start" := VFloat (float_of_str g)]> (metadata ch)).
Proof. intros Hf. unfold annotate. rewrite (re_search_first _ _ _ Hf). reflexivity. Qed.

Lemma annotate_none (ch : Document) :
  (forall i g, ~ marker_at (page_content ch) i g) -> annotate ch = ch.
Proof. intros Hno. unfold annotate. rewrite (re_search_none _ Hno). reflexivity. Qed.

Lemma chunk_document_metadata (self : t) (doc ch : Document) :
  In ch (chunk_document self doc) -> metadata ch = metadata doc.
Proof.
  unfold chunk_document, splitter_split_documents. simpl.
  rewrite app_nil_r. intros Hin. apply in_map_iff in Hin as (c & <- & _).
  reflexivity.
Qed.

Lemma transcript_to_document_metadata (transcript : list (gmap string value))
    (url : str) (base_doc : Document) :
  transcript_to_document transcript url = Ok base_doc ->
  metadata base_doc =
  <["source" := VStr url]> (<["type" := VStr (lit "youtube_transcript")]> ∅).
Proof.
  unfold transcript_to_document. destruct (entry_lines transcript); [|discriminate].
  simpl. intros [= <-]. reflexivity.
Qed.

(** The pipeline fails only where fetching or merging fails. *)
Lemma process_video_ok (self : t) (url : str) (log log' : net_log)
    (transcript : list (gmap string value)) (base_doc : Document) :
  load_transcript url log = (Ok transcript, log') ->
  transcript_to_document transcript url = Ok base_doc ->
  process_video self url log =
  (Ok (map annotate (chunk_document self base_doc)), log').
Proof.
  intros Hload Hdoc. unfold process_video. rewrite Hload. simpl.
  rewrite Hdoc. reflexivity.
Qed.

Lemma process_video_inv (self : t) (url : str) (log log' : net_log)
    (chunks : list Document) :
  process_video self url log = (Ok chunks, log') ->
  exists transcript base_doc,
    load_transcript url log = (Ok transcript, log') /\
    transcript_to_document transcript url = Ok base_doc /\
    chunks = map annotate (chunk_document self base_doc).
Proof.
  unfold process_video. destruct (load_transcript url log) as [r l] eqn:Hload.
  destruct r as [transcript|e]; simpl; [|discriminate].
  destruct (transcript_to_document transcript url) as [base_doc|e] eqn:Hdoc;
    simpl; [|discriminate].
  intros [= <- <-]. eauto.
Qed.

Lemma entry_line_dict (e : Snippet) :
  entry_line (entry_dict e) =
  Ok (lit "[" ++ format_1f (snippet_start e) ++ lit "s] " ++ snippet_text e).
Proof.
  unfold entry_line, entry_dict.
  rewrite lookup_insert_eq.
  rewrite lookup_insert_ne by discriminate. rewrite lookup_insert_eq.
  reflexivity.
Qed.

(** C8: every chunk that the pipeline returns and whose content has a
    marker [[<digits>.<digits>s]] carries, under [timestamp_start], the
    float read from the first marker; a chunk without a marker comes back
    without that key; annotating raises nothing, so the pipeline succeeds
    whenever fetching and merging do.  The two-line transcript of the
    specification, kept in one chunk by the splitter, gives one chunk with
    [timestamp_start = float("0.0")]. *)
Theorem timestamp_annotation :
  (forall (self : t) (url : str) (log log' : net_log) (chunks : list Document),
     process_video self url log = (Ok chunks, log') ->
     forall ch, In ch chunks ->
       ((exists i g, marker_at (page_content ch) i g) ->
          exists i g, first_marker (page_content ch) i g) /\
       (forall i g, first_marker (page_content ch) i g ->
          metadata ch !! "timestamp_start" = Some (VFloat (float_of_str g))) /\
       ((forall i g, ~ marker_at (page_content ch) i g) ->
          metadata ch !! "timestamp_start" = None)) /\
  (forall (self : t) (url : str) (log log' : net_log) transcript base_doc,
     load_transcript url log = (Ok transcript, log') ->
     transcript_to_document transcript url = Ok base_doc ->
     process_video self url log =
     (Ok (map annotate (chunk_document self base_doc)), log')) /\
  (forall (self : t) (url video_id : str) (log : net_log) (e0 e1 : Snippet),
     extract_video_id url = Ok video_id ->
     YouTubeTranscriptApi_fetch video_id = Ok [e0; e1] ->
     snippet_text e0 = lit "hello" -> format_1f (snippet_start e0) = lit "0.0" ->
     snippet_text e1 = lit "world" -> format_1f (snippet_start e1) = lit "2.5" ->
     split_text (the_splitter self) EXAMPLE_TEXT = [EXAMPLE_TEXT] ->
     exists md,
       process_video self url log =
       (Ok [mkDocument EXAMPLE_TEXT md], log ++ [video_id]) /\
       md !! "timestamp_start" = Some (VFloat (float_of_str (lit "0.0")))).
Proof.
  split; [|split].
  - intros self url log log' chunks Hrun ch Hin.
    apply process_video_inv in Hrun as (transcript & base_doc & _ & Hdoc & ->).
    apply in_map_iff in Hin as (c & <- & Hc).
    apply chunk_document_metadata in Hc.
    apply transcript_to_document_metadata in Hdoc.
    rewrite annotate_content. split; [apply first_marker_exists|]. split.
    + intros i g Hfirst. rewrite (annotate_first _ _ _ Hfirst). simpl.
      apply lookup_insert_eq.
    + intros Hno. rewrite (annotate_none _ Hno), Hc, Hdoc.
      rewrite !lookup_insert_ne by discriminate. apply lookup_empty.
  - intros self url log log' transcript base_doc Hload Hdoc.
    exact (process_video_ok self url log log' transcript base_doc Hload Hdoc).
  - intros self url video_id log e0 e1 Hid Hfetch Ht0 Hs0 Ht1 Hs1 Hsplit.
    set (base_doc :=
           mkDocument EXAMPLE_TEXT
             (<["source" := VStr url]>
                (<["type" := VStr (lit "youtube_transcript")]> ∅))).
    assert (Hrun : process_video self url log =
                   (Ok (map annotate (chunk_document self base_doc)),
                    log ++ [video_id])).
    { apply (process_video_ok self url log (log ++ [video_id])
               (map entry_dict [e0; e1]) base_doc).
      - unfold load_transcript. rewrite Hid, Hfetch. reflexivity.
      - unfold transcript_to_document. simpl.
        rewrite !entry_line_dict. simpl. rewrite Hs0, Hs1, Ht0, Ht1.
        reflexivity. }
    assert (Hone : map annotate (chunk_document self base_doc) =
                   [mkDocument EXAMPLE_TEXT
                      (<["timestamp_start" := VFloat (float_of_str (lit "0.0"))]>
                         (metadata base_doc))]).
    { unfold chunk_document, splitter_split_documents. simpl.
      rewrite Hsplit. simpl. unfold annotate. simpl.
      replace (re_search EXAMPLE_TEXT) with (Some (lit "0.0"))
        by (vm_compute; reflexivity).
      reflexivity. }
    rewrite Hone in Hrun. eexists. split; [exact Hrun|].
    apply lookup_insert_eq.
Qed.

End Pipeline.

Lemma timestamp_annotation_witness :
  let self := @VideoProcessor.mk Doubles.whole_splitter tt in
  let url := lit "https://youtu.be/abc123" in
  (exists md,
     @process_video Doubles.text_float Doubles.canned_api Doubles.whole_splitter
       self url [] =
     (Ok [Doubles.doc EXAMPLE_TEXT md], [] ++ [lit "abc123"]) /\
     md !! "timestamp_start" = Some (VFloat (lit "0.0" : @float Doubles.text_float))) /\
  (forall ch,
     In ch [annotate (Doubles.doc EXAMPLE_TEXT
                        (<["source" := VStr url]>
                           (<["type" := VStr (lit "youtube_transcript")]> ∅)))] ->
     metadata ch !! "timestamp_start"
     = Some (VFloat (lit "0.0" : @float Doubles.text_float))).
Proof.
  intros self url.
  pose proof (@timestamp_annotation Doubles.text_float Doubles.canned_api
                Doubles.whole_splitter) as (Hall & _ & Hexample).
  split.
  - apply (Hexample self url (lit "abc123") []
             (@mkSnippet Doubles.text_float (lit "hello") (lit "0.0") (lit "2.5"))
             (@mkSnippet Doubles.text_float (lit "world") (lit "2.5") (lit "1.0")));
      vm_compute; reflexivity.
  - intros ch Hin.
    refine (proj1 (proj2 (Hall self url [] [lit "abc123"] _ _ ch Hin))
              0 (lit "0.0") _).
    + vm_compute. reflexivity.
    + destruct Hin as [<- | []]. split; [|intros j g' Hj; lia].
      exists [], (lit "[0.0s]"), (lit " hello" ++ NEWLINE ++ lit "[2.5s] world").
      split; [vm_compute; reflexivity|]. split; [reflexivity|].
      exists (lit "0"), (lit "0"). repeat split; discriminate.
Defined.

(** *** Links and the network *)

Lemma YOUTU_BE_overlap_free : overlap_free YOUTU_BE = true.
Proof. vm_compute. reflexivity. Qed.

(** The branch taken for a link with [youtu.be/] and without [watch?v=]. *)
Lemma extract_video_id_youtu_be_branch (url pre rest : str) :
  (forall a b, ~ occurs WATCH url a b) ->
  occurs YOUTU_BE url pre rest ->
  (forall a b, occurs YOUTU_BE url a b -> length a <= length pre) ->
  exists vid,
    up_to_first QMARK rest vid /\ extract_video_id url = Ok (strip vid).
Proof.
  intros Hno Hocc Hlast. unfold extract_video_id.
  rewrite (proj2 (contains_false WATCH url) Hno).
  assert (Hc : contains YOUTU_BE url = true) by (apply contains_true; eauto).
  rewrite Hc.
  rewrite (last_split YOUTU_BE url pre rest YOUTU_BE_overlap_free
             ltac:(discriminate) Hocc Hlast).
  simpl. destruct (first_split_up_to rest QMARK) as (vid & Hfirst & Hup);
    [discriminate|].
  exists vid. split; [exact Hup|]. rewrite Hfirst. reflexivity.
Qed.

Lemma extract_video_id_invalid (url : str) :
  (forall a b, ~ occurs WATCH url a b) ->
  (forall a b, ~ occurs YOUTU_BE url a b) ->
  extract_video_id url = Err (ValueError (lit "Invalid YouTube link")).
Proof.
  intros Hw Hy. unfold extract_video_id.
  rewrite (proj2 (contains_false WATCH url) Hw).
  rewrite (proj2 (contains_false YOUTU_BE url) Hy). reflexivity.
Qed.

Section Links.
Context `{PF : PyFloat} `{!TranscriptApi} `{TextSplitter}.

(** C7: the two links of the specification give [abc123], the id ending at
    [&] in the first and at [?] in the second; a link with neither
    [watch?v=] nor [youtu.be/] in it, such as [https://example.com], is
    refused with the invalid link error, and [load_transcript] and
    [process_video] then raise it without a request to the provider: the
    log of requests is as it was. *)
Theorem extract_video_id_examples :
  extract_video_id (lit "https://www.youtube.com/watch?v=abc123&t=5")
  = Ok (lit "abc123") /\
  extract_video_id (lit "https://youtu.be/abc123?t=5") = Ok (lit "abc123") /\
  extract_video_id (lit "https://example.com")
  = Err (ValueError (lit "Invalid YouTube link")) /\
  (forall url : str,
     (forall a b, ~ occurs WATCH url a b) ->
     (forall a b, ~ occurs YOUTU_BE url a b) ->
     extract_video_id url = Err (ValueError (lit "Invalid YouTube link")) /\
     forall (self : t) (log : net_log),
       load_transcript url log
       = (Err (ValueError (lit "Invalid YouTube link")), log) /\
       process_video self url log
       = (Err (ValueError (lit "Invalid YouTube link")), log)).
Proof.
  split; [vm_compute; reflexivity|].
  split; [vm_compute; reflexivity|].
  split; [vm_compute; reflexivity|].
  intros url Hw Hy.
  assert (Hid := extract_video_id_invalid url Hw Hy).
  split; [exact Hid|]. intros self log.
  unfold process_video, load_transcript. rewrite Hid. split; reflexivity.
Qed.

End Links.

Lemma extract_video_id_examples_witness :
  let url := lit "https://example.com" in
  let self := @VideoProcessor.mk Doubles.whole_splitter tt in
  extract_video_id url = Err (ValueError (lit "Invalid YouTube link")) /\
  @process_video Doubles.text_float Doubles.canned_api Doubles.whole_splitter
    self url [lit "earlier"]
  = (Err (ValueError (lit "Invalid YouTube link")), [lit "earlier"]).
Proof.
  intros url self.
  destruct (proj2 (proj2 (proj2
              (@extract_video_id_examples Doubles.text_float Doubles.canned_api
                 Doubles.whole_splitter))) url) as [Hid Hnet].
  - apply contains_false. vm_compute. reflexivity.
  - apply contains_false. vm_compute. reflexivity.
  - split; [exact Hid|]. exact (proj2 (Hnet self [lit "earlier"])).
Defined.

End VideoProcessorFacts.

(** ** The vector store *)

Module VectorStoreFacts.
Import VectorStore.

Section Store.
Context `{PF : PyFloat} `{!Pinecone} `{Config}.

(** C9: adding an empty list of documents raises the error of the empty
    input, for a store on any namespace; the store object, the remote index
    and the list of calls to the embedding model and the index are what
    they were. *)
Theorem add_documents_empty (self : t) (w : world) :
  add_documents self [] w =
  (Err (ValueError (lit "No documents provided to add to vector store.")),
   self, w).
Proof. reflexivity. Qed.

(** With documents, on the other hand, the call goes out. *)
Lemma add_documents_calls (self : t) (d : Document) (ds : list Document)
    (w : world) :
  calls (add_documents self (d :: ds) w).2 =
  calls w ++ [CallAddDocuments (vectorstore self) (d :: ds)].
Proof.
  unfold add_documents.
  destruct (pinecone_add_documents (vectorstore self) (d :: ds) (remote w))
    as [[u|e] remote']; reflexivity.
Qed.

Lemma retrieve_any_k (self : t) (query : str) (k k' : Z) (w : world) :
  retrieve self query k w = retrieve self query k' w.
Proof. reflexivity. Qed.

End Store.

(** C3: the answer of [retrieve] is the same for every [k]; with three
    documents stored under a namespace and [k = 1], the three come back. *)
Theorem retrieve_ignores_k :
  (forall (PF : PyFloat) (P : Pinecone) (self : t) (query : str) (k k' : Z)
          (w : world),
     retrieve self query k w = retrieve self query k' w) /\
  (let d := fun s => Doubles.doc (lit s) ∅ in
   let w := @mkWorld _ Doubles.memory_index [] [] in
   exists self,
     @init _ Doubles.memory_index Doubles.test_config (Some (lit "ns")) w
     = Ok self /\
     let '(_, self', w') :=
       @add_documents _ Doubles.memory_index self
         [d "one"; d "two"; d "three"] w in
     (@retrieve _ Doubles.memory_index self' (lit "query") 1 w').1.1
     = Ok [d "one"; d "two"; d "three"]).
Proof.
  split; [reflexivity|].
  eexists. split; [reflexivity|]. vm_compute. reflexivity.
Qed.

End VectorStoreFacts.

(** * Further properties of the code *)

(** ** Batches of sources *)

Module LoadDocumentsFacts.
Import DocumentProcessor DocumentProcessorFacts DocumentProcessorSpec.

Section Batches.
Context `{PF : PyFloat} `{!Loaders} `{PathLib}.

(** What has been collected so far only ever gets longer at its end. *)
Lemma load_documents_from_acc (docs : list Document) (sources : list str) :
  load_documents_from docs sources =
  bind (load_documents_from [] sources) (fun new => Ok (docs ++ new)).
Proof.
  revert docs. induction sources as [|s rest IH]; intros docs.
  - simpl. rewrite app_nil_r. reflexivity.
  - rewrite !load_documents_from_cons.
    destruct (load_source s) as [n|e]; simpl; [|reflexivity].
    rewrite (IH (docs ++ n)), (IH n).
    destruct (load_documents_from [] rest) as [x|e]; simpl; [|reflexivity].
    rewrite app_assoc. reflexivity.
Qed.

Lemma load_documents_cons (s : str) (rest : list str) :
  load_documents (s :: rest) =
  bind (load_source s) (fun n =>
  bind (load_documents rest) (fun r => Ok (n ++ r))).
Proof.
  unfold load_documents. rewrite load_documents_from_cons.
  destruct (load_source s) as [n|e]; simpl; [|reflexivity].
  apply load_documents_from_acc.
Qed.

Lemma load_documents_Ok_iff (sources : list str) (docs : list Document) :
  load_documents sources = Ok docs <->
  exists per_source : list (list Document),
    Forall2 (fun s ds => load_source s = Ok ds) sources per_source /\
    docs = concat per_source.
Proof.
  revert docs. induction sources as [|s rest IH]; intros docs.
  - split.
    + intros [= <-]. exists []. split; [constructor|reflexivity].
    + intros (dss & Hall & ->). inversion Hall. reflexivity.
  - rewrite load_documents_cons. split.
    + destruct (load_source s) as [n|e] eqn:Hs; simpl; [|discriminate].
      destruct (load_documents rest) as [r|e] eqn:Hr; simpl; [|discriminate].
      intros [= <-]. destruct (proj1 (IH r) eq_refl) as (dss & Hall & ->).
      exists (n :: dss). split; [constructor; assumption|reflexivity].
    + intros (dss & Hall & ->). inversion Hall as [|s' ds ? dss' Hs Hrest]; subst.
      rewrite Hs. simpl.
      rewrite (proj2 (IH (concat dss')))
        by (exists dss'; split; [assumption|reflexivity]).
      reflexivity.
Qed.

Lemma load_documents_Err_iff (sources : list str) (e : exn) :
  load_documents sources = Err e <->
  exists before s after,
    sources = before ++ s :: after /\
    (forall b, In b before -> is_ok (load_source b) = true) /\
    load_source s = Err e.
Proof.
  induction sources as [|s rest IH].
  - split; [discriminate|]. intros (before & s & after & Heq & _).
    destruct before; discriminate.
  - rewrite load_documents_cons. split.
    + destruct (load_source s) as [n|e'] eqn:Hs; simpl.
      * destruct (load_documents rest) as [r|e'] eqn:Hr; simpl; [discriminate|].
        intros [= ->].
        destruct (proj1 IH eq_refl) as (before & s' & after & -> & Hok & Hs').
        exists (s :: before), s', after. split; [reflexivity|]. split; [|exact Hs'].
        intros b [<- | Hb]; [rewrite Hs; reflexivity|exact (Hok b Hb)].
      * intros [= ->]. exists [], s, rest. split; [reflexivity|].
        split; [intros b []|exact Hs].
    + intros (before & s' & after & Heq & Hok & Hs').
      destruct before as [|b before]; simpl in Heq; injection Heq as -> ->.
      * rewrite Hs'. reflexivity.
      * assert (Hb := Hok b (or_introl eq_refl)).
        destruct (load_source b) as [n|e']; [|discriminate]. simpl.
        rewrite (proj2 IH); [reflexivity|].
        exists before, s', after. split; [reflexivity|]. split; [|exact Hs'].
        intros b' Hb'. apply Hok. right. exact Hb'.
Qed.

(** X1: [load_documents] succeeds exactly when every source loads, and
    then returns the documents of the sources one after the other, in the
    order of the sources. *)
Theorem load_documents_in_order (sources : list str) (docs : list Document) :
  load_documents sources = Ok docs <->
  exists per_source : list (list Document),
    Forall2 (fun s ds => load_source s = Ok ds) sources per_source /\
    docs = concat per_source.
Proof. apply load_documents_Ok_iff. Qed.

(** X2: the error of [load_documents] is always the error of the first
    source that does not load, raised as it is. *)
Theorem load_documents_first_error (sources : list str) (e : exn) :
  load_documents sources = Err e <->
  exists before s after,
    sources = before ++ s :: after /\
    (forall b, In b before -> is_ok (load_source b) = true) /\
    load_source s = Err e.
Proof. apply load_documents_Err_iff. Qed.

(** X3: loading two lists in one batch is loading the first, then the
    second, and putting the results end to end; the first error wins. *)
Theorem load_documents_app (xs ys : list str) :
  load_documents (xs ++ ys) =
  bind (load_documents xs) (fun a =>
  bind (load_documents ys) (fun b => Ok (a ++ b))).
Proof.
  induction xs as [|s xs IH].
  - simpl app. change (load_documents []) with (Ok (@nil Document)). simpl.
    destruct (load_documents ys); reflexivity.
  - simpl app. rewrite !load_documents_cons.
    destruct (load_source s) as [n|e]; simpl; [|reflexivity].
    rewrite IH. destruct (load_documents xs) as [a|e]; simpl; [|reflexivity].
    destruct (load_documents ys) as [b|e]; simpl; [|reflexivity].
    rewrite app_assoc. reflexivity.
Qed.

(** X21: a source that starts with [http://] or [https://] goes to the web
    loader whatever its ending, and its documents come back as the loader
    made them: no handler of the table sees them and no [source] is
    added. *)
Theorem load_documents_url (url : str) :
  is_url url = true ->
  load_documents [url] = WebBaseLoader url /\
  load_source url = WebBaseLoader url.
Proof.
  intros Hurl. rewrite load_documents_cons. unfold load_source, load_from_url.
  rewrite Hurl. split; [|reflexivity].
  change (load_documents []) with (Ok (@nil Document)).
  destruct (WebBaseLoader url) as [n|e]; simpl; [|reflexivity].
  rewrite app_nil_r. reflexivity.
Qed.

(** X22: a source that is not a URL and whose path suffix, in lower case,
    is none of the eleven extensions of the table is refused: with it
    alone in the list, [load_documents] raises the unsupported source
    error that names it.  With one of the eleven, the outcome is that of
    the handler that the table has for the suffix, called with the path
    as pathlib prints it. *)
Theorem load_source_dispatch (src_str : str) :
  is_url src_str = false ->
  (~ In (suffix_of src_str) supported_extensions ->
   load_source src_str = Err (ValueError (unsupported_message src_str)) /\
   load_documents [src_str] = Err (ValueError (unsupported_message src_str))) /\
  (In (suffix_of src_str) supported_extensions ->
   exists loader,
     In (suffix_of src_str, loader) extension_handlers /\
     load_source src_str = loader (Path_str (Path_of src_str)) /\
     load_documents [src_str] = loader (Path_str (Path_of src_str))).
Proof.
  intros Hurl.
  assert (Hone : load_documents [src_str] = load_source src_str).
  { rewrite load_documents_cons.
    change (load_documents []) with (Ok (@nil Document)).
    destruct (load_source src_str) as [n|e]; simpl; [|reflexivity].
    rewrite app_nil_r. reflexivity. }
  rewrite Hone. unfold load_source. rewrite Hurl. split.
  - intros Hnot. apply extension_loaders_keys in Hnot. rewrite Hnot. auto.
  - intros Hin.
    destruct (extension_loaders !! suffix_of src_str) as [loader|] eqn:Hext.
    + exists loader. split; [|auto].
      unfold extension_loaders in Hext.
      apply elem_of_list_to_map_2, list_elem_of_In in Hext. exact Hext.
    + apply extension_loaders_keys in Hext. contradiction.
Qed.

(** Every handler of the table leaves a source in the metadata. *)
Lemma extension_loaders_source (ext : string)
    (loader : str -> result (list Document)) (file_path : str)
    (docs : list Document) (d : Document) :
  extension_loaders !! ext = Some loader ->
  loader file_path = Ok docs -> In d docs ->
  is_Some (metadata d !! "source").
Proof.
  intros Hext Hload Hd. unfold extension_loaders in Hext.
  apply elem_of_list_to_map_2, list_elem_of_In in Hext. simpl in Hext.
  assert (Htag : forall tag, In (loader, tag) tagging_handlers ->
                             is_Some (metadata d !! "source")).
  { intros tag Hin.
    exact (proj1 (tagging_handlers_tag loader tag file_path docs d Hin Hload Hd)). }
  assert (Hplain : loader = load_from_pdf \/ loader = load_from_txt ->
                   is_Some (metadata d !! "source")).
  { intros [-> | ->];
      apply (pdf_txt_handlers_source file_path docs d); auto. }
  destruct Hext as [Hh|[Hh|[Hh|[Hh|[Hh|[Hh|[Hh|[Hh|[Hh|[Hh|[Hh|[]]]]]]]]]]]];
    injection Hh as _ <-.
  - apply Hplain. left. reflexivity.
  - apply Hplain. right. reflexivity.
  - apply (Htag "docx"%string). simpl. auto.
  - apply (Htag "docx"%string). simpl. auto.
  - apply (Htag "csv"%string). simpl. auto.
  - apply (Htag "json"%string). simpl. auto.
  - apply (Htag "markdown"%string). simpl. auto 10.
  - apply (Htag "markdown"%string). simpl. auto 10.
  - apply (Htag "html"%string). simpl. auto 10.
  - apply (Htag "html"%string). simpl. auto 10.
  - apply (Htag "python"%string). simpl. auto 10.
Qed.

(** X4: when no source of the batch is a URL, every document that
    [load_documents] returns has a [source] in its metadata. *)
Theorem load_documents_files_have_source (sources : list str)
    (docs : list Document) :
  (forall s, In s sources -> is_url s = false) ->
  load_documents sources = Ok docs ->
  forall d, In d docs -> is_Some (metadata d !! "source").
Proof.
  intros Hfiles Hload d Hd.
  apply load_documents_Ok_iff in Hload as (dss & Hall & ->).
  apply in_concat in Hd as (ds & Hds & Hd).
  revert Hfiles. induction Hall as [|s ds' rest dss' Hs Hall IH]; intros Hfiles.
  - destruct Hds.
  - destruct Hds as [-> | Hds].
    + unfold load_source in Hs. rewrite (Hfiles s (or_introl eq_refl)) in Hs.
      destruct (extension_loaders !! suffix_of s) as [loader|] eqn:Hext;
        [|discriminate].
      exact (extension_loaders_source _ loader _ ds d Hext Hs Hd).
    + apply (IH Hds). intros s' Hs'. apply Hfiles. right. exact Hs'.
Qed.

End Batches.

Lemma load_documents_in_order_witness :
  @load_documents _ Doubles.finding_loaders Doubles.plain_paths
    [lit "a.pdf"; lit "b.txt"]
  = Ok (concat
          [ [Doubles.doc (lit "content of a.pdf")
               (<["source" := VStr (lit "a.pdf")]> {["page" := VInt 0]})];
            [Doubles.doc (lit "content of b.txt")
               (<["source" := VStr (lit "b.txt")]> ∅)] ]).
Proof.
  apply (proj2 (@load_documents_in_order _ Doubles.finding_loaders
                  Doubles.plain_paths _ _)).
  eexists. split; [|reflexivity].
  repeat constructor; vm_compute; reflexivity.
Defined.

Lemma load_documents_first_error_witness :
  @load_documents _ Doubles.finding_loaders Doubles.plain_paths
    [lit "a.pdf"; lit "bad.xyz"; lit "c.txt"]
  = Err (ValueError (unsupported_message (lit "bad.xyz"))).
Proof.
  apply (proj2 (@load_documents_first_error _ Doubles.finding_loaders
                  Doubles.plain_paths _ _)).
  exists [lit "a.pdf"], (lit "bad.xyz"), [lit "c.txt"].
  split; [reflexivity|]. split; [|vm_compute; reflexivity].
  intros b [<- | []]. vm_compute. reflexivity.
Defined.

Lemma load_documents_url_witness :
  @load_documents _ Doubles.finding_loaders Doubles.plain_paths
    [lit "https://example.com/paper.pdf"]
  = @WebBaseLoader _ Doubles.finding_loaders (lit "https://example.com/paper.pdf").
Proof.
  exact (proj1 (@load_documents_url _ Doubles.finding_loaders Doubles.plain_paths
                  (lit "https://example.com/paper.pdf") eq_refl)).
Defined.

Lemma load_source_dispatch_witness :
  (exists loader,
     In (@suffix_of Doubles.plain_paths (lit "docs/Report.PDF"), loader)
        (@DocumentProcessorSpec.extension_handlers _ Doubles.finding_loaders) /\
     @load_documents _ Doubles.finding_loaders Doubles.plain_paths
       [lit "docs/Report.PDF"] = loader (lit "docs/Report.PDF")) /\
  @load_documents _ Doubles.finding_loaders Doubles.plain_paths [lit "notes.rtf"]
  = Err (ValueError (unsupported_message (lit "notes.rtf"))).
Proof.
  split.
  - destruct (proj2 (@load_source_dispatch _ Doubles.finding_loaders
                       Doubles.plain_paths (lit "docs/Report.PDF") eq_refl))
      as (loader & Hin & _ & Hload).
    + vm_compute. auto.
    + exists loader. split; [exact Hin|exact Hload].
  - refine (proj2 (proj1 (@load_source_dispatch _ Doubles.finding_loaders
                            Doubles.plain_paths (lit "notes.rtf") eq_refl) _)).
    vm_compute. intuition discriminate.
Defined.

Lemma load_documents_files_have_source_witness :
  is_Some (metadata
             (Doubles.doc (lit "content of b.txt")
                (<["source" := VStr (lit "b.txt")]> ∅)) !! "source").
Proof.
  apply (@load_documents_files_have_source _ Doubles.finding_loaders
           Doubles.plain_paths [lit "a.pdf"; lit "b.txt"]
           [ Doubles.doc (lit "content of a.pdf")
               (<["source" := VStr (lit "a.pdf")]> {["page" := VInt 0]});
             Doubles.doc (lit "content of b.txt")
               (<["source" := VStr (lit "b.txt")]> ∅) ]).
  - intros s [<- | [<- | []]]; reflexivity.
  - vm_compute. reflexivity.
  - right. left. reflexivity.
Defined.

(** ** The handlers and the constructors *)

Section HandlersMore.
Context `{PF : PyFloat} `{!Loaders} `{PathLib} `{TextSplitter}.
Import DocumentProcessorSpec.

Lemma ensure_source_handled (file_path : str) (d : Document) :
  handled file_path None d (ensure_source file_path d).
Proof.
  repeat split.
  - apply ensure_source_source.
  - apply ensure_source_file_type.
  - intros k Hs _. apply setdefault_lookup_ne. congruence.
Qed.

Lemma ensure_source_and_type_handled (file_path : str) (tag : string)
    (d : Document) :
  handled file_path (Some tag) d (ensure_source_and_type file_path tag d).
Proof.
  repeat split.
  - apply ensure_source_and_type_source.
  - apply ensure_source_and_type_file_type.
  - intros k Hs Ht. unfold ensure_source_and_type. simpl.
    rewrite lookup_insert_ne by congruence.
    apply setdefault_lookup_ne. congruence.
Qed.

Lemma Forall2_map_right {A B} (P : A -> B -> Prop) (f : A -> B) (l : list A) :
  (forall x, P x (f x)) -> Forall2 P l (map f l).
Proof. intros Hf. induction l; simpl; constructor; auto. Qed.

Lemma wrapped_loader (loader : str -> result (list Document))
    (f : Document -> Document) (tag : option string) (file_path : str) :
  (forall d, handled file_path tag d (f d)) ->
  let handler := bind (loader file_path) (fun docs => Ok (map f docs)) in
  (forall e, handler = Err e <-> loader file_path = Err e) /\
  (forall docs, loader file_path = Ok docs ->
     exists docs', handler = Ok docs' /\
                   Forall2 (handled file_path tag) docs docs').
Proof.
  intros Hf handler. unfold handler.
  destruct (loader file_path) as [docs|e0]; simpl; split.
  - intros e. split; discriminate.
  - intros docs0 [= <-]. eexists. split; [reflexivity|].
    apply Forall2_map_right, Hf.
  - intros e. split; congruence.
  - discriminate.
Qed.

(** X5: a handler that wraps a loader fails exactly as the loader fails;
    otherwise it returns the loader's documents, as many and in the same
    order, with the same content, the loader's [source] if it set one and
    the path if not, [file_type] overwritten with the handler's tag if it
    has one, and every other metadata entry as the loader left it. *)
Theorem loader_handlers_keep_the_rest
    (handler loader : str -> result (list Document)) (tag : option string)
    (file_path : str) :
  In (handler, loader, tag) loader_handlers ->
  (forall e, handler file_path = Err e <-> loader file_path = Err e) /\
  (forall docs, loader file_path = Ok docs ->
     exists docs', handler file_path = Ok docs' /\
                   Forall2 (handled file_path tag) docs docs').
Proof.
  intros Hin. simpl in Hin.
  destruct Hin as [Hh|[Hh|[Hh|[Hh|[Hh|[Hh|[Hh|[]]]]]]]];
    injection Hh as <- <- <-.
  - exact (wrapped_loader PyPDFLoader _ None file_path
             (ensure_source_handled file_path)).
  - exact (wrapped_loader TextLoader _ None file_path
             (ensure_source_handled file_path)).
  - exact (wrapped_loader Docx2txtLoader _ _ file_path
             (ensure_source_and_type_handled file_path "docx")).
  - exact (wrapped_loader CSVLoader _ _ file_path
             (ensure_source_and_type_handled file_path "csv")).
  - exact (wrapped_loader UnstructuredMarkdownLoader _ _ file_path
             (ensure_source_and_type_handled file_path "markdown")).
  - exact (wrapped_loader UnstructuredHTMLLoader _ _ file_path
             (ensure_source_and_type_handled file_path "html")).
  - exact (wrapped_loader TextLoader _ _ file_path
             (ensure_source_and_type_handled file_path "python")).
Qed.


(** X7: both constructors accept exactly the configurations that the
    splitter's constructor accepts and raise its error otherwise; a
    [DocumentProcessor] keeps the chunk size and the overlap it was given,
    whatever they are. *)
Theorem constructors_follow_the_splitter (chunk_size chunk_overlap : Z) :
  (forall e,
     DocumentProcessor.init chunk_size chunk_overlap = Err e <->
     RecursiveCharacterTextSplitter chunk_size chunk_overlap = Err e) /\
  (forall e,
     VideoProcessor.init chunk_size chunk_overlap = Err e <->
     RecursiveCharacterTextSplitter chunk_size chunk_overlap = Err e) /\
  (forall sp,
     RecursiveCharacterTextSplitter chunk_size chunk_overlap = Ok sp ->
     DocumentProcessor.init chunk_size chunk_overlap
     = Ok (DocumentProcessor.mk chunk_size chunk_overlap sp) /\
     VideoProcessor.init chunk_size chunk_overlap = Ok (VideoProcessor.mk sp)) /\
  (is_ok (DocumentProcessor.init chunk_size chunk_overlap) =
   is_ok (VideoProcessor.init chunk_size chunk_overlap)).
Proof.
  unfold DocumentProcessor.init, VideoProcessor.init.
  destruct (RecursiveCharacterTextSplitter chunk_size chunk_overlap) as [sp|e0];
    simpl; repeat split; try congruence; try discriminate.
Qed.

End HandlersMore.

Lemma loader_handlers_keep_the_rest_witness :
  exists docs',
    @load_from_docx _ Doubles.finding_loaders (lit "a.docx") = Ok docs' /\
    Forall2 (@DocumentProcessorSpec.handled Doubles.text_float (lit "a.docx")
               (Some "docx"%string))
      [Doubles.doc (lit "content of a.docx")
         (<["source" := VStr (lit "a.docx")]> ∅)]
      docs'.
Proof.
  apply (proj2 (@loader_handlers_keep_the_rest _ Doubles.finding_loaders
                  (@load_from_docx _ Doubles.finding_loaders)
                  (@Docx2txtLoader _ Doubles.finding_loaders)
                  (Some "docx"%string)
                  (lit "a.docx") ltac:(simpl; auto))).
  reflexivity.
Defined.


Lemma constructors_follow_the_splitter_witness :
  @DocumentProcessor.init Doubles.whole_splitter 500 50
  = Ok (@DocumentProcessor.mk Doubles.whole_splitter 500 50 tt) /\
  @VideoProcessor.init Doubles.whole_splitter 400 50
  = Ok (@VideoProcessor.mk Doubles.whole_splitter tt).
Proof.
  split.
  - exact (proj1 (proj1 (proj2 (proj2
             (@constructors_follow_the_splitter Doubles.whole_splitter 500 50)))
             tt eq_refl)).
  - exact (proj2 (proj1 (proj2 (proj2
             (@constructors_follow_the_splitter Doubles.whole_splitter 400 50)))
             tt eq_refl)).
Defined.

End LoadDocumentsFacts.

(** ** More on video links *)

Module VideoLinkFacts.
Import PyFacts VideoIdFacts VideoProcessorFacts.

(** X8: a string without [watch?v=] and with [youtu.be/] in it gets an id,
    never an error: the text after the last [youtu.be/], cut before its
    first [?], with the white space around it removed. *)
Theorem extract_video_id_youtu_be_rule (url : str) :
  (forall a b, ~ occurs WATCH url a b) ->
  (exists a b, occurs YOUTU_BE url a b) ->
  exists pre rest vid id,
    occurs YOUTU_BE url pre rest /\
    (forall a b, occurs YOUTU_BE url a b -> length a <= length pre) /\
    up_to_first QMARK rest vid /\
    stripped vid id /\
    extract_video_id url = Ok id.
Proof.
  intros Hno Hex.
  destruct (last_occurrence_exists YOUTU_BE url Hex) as (pre & rest & Hocc & Hlast).
  destruct (extract_video_id_youtu_be_branch url pre rest Hno Hocc Hlast)
    as (vid & Hup & Hid).
  exists pre, rest, vid, (strip vid). auto using strip_spec.
Qed.

Lemma extract_video_id_youtu_be_rule_witness :
  let url := lit "http://youtu.be/x youtu.be/ abc ?t=5?u" in
  exists pre rest vid id,
    occurs YOUTU_BE url pre rest /\
    (forall a b, occurs YOUTU_BE url a b -> length a <= length pre) /\
    up_to_first QMARK rest vid /\
    stripped vid id /\
    extract_video_id url = Ok id.
Proof.
  intros url. apply extract_video_id_youtu_be_rule.
  - apply contains_false. vm_compute. reflexivity.
  - exists (lit "http://"), (lit "x youtu.be/ abc ?t=5?u"). reflexivity.
Defined.

(** X9: [extract_video_id] raises nothing but the invalid link error, and
    raises it exactly for the strings with neither [watch?v=] nor
    [youtu.be/] in them; its indexing of the pieces never fails. *)
Theorem extract_video_id_only_error (url : str) (e : exn) :
  extract_video_id url = Err e <->
  e = ValueError (lit "Invalid YouTube link") /\
  (forall a b, ~ occurs WATCH url a b) /\
  (forall a b, ~ occurs YOUTU_BE url a b).
Proof.
  split.
  - intros Herr.
    destruct (contains WATCH url) eqn:Hw.
    { apply contains_true in Hw.
      destruct (last_occurrence_exists WATCH url Hw) as (pre & rest & Hocc & Hlast).
      destruct (extract_video_id_watch_branch url pre rest Hocc Hlast)
        as (vid & _ & Hid).
      congruence. }
    assert (Hw' := proj1 (contains_false WATCH url) Hw). clear Hw.
    rename Hw' into Hw.
    destruct (contains YOUTU_BE url) eqn:Hy.
    { apply contains_true in Hy.
      destruct (last_occurrence_exists YOUTU_BE url Hy) as (pre & rest & Hocc & Hlast).
      destruct (extract_video_id_youtu_be_branch url pre rest Hw Hocc Hlast)
        as (vid & _ & Hid).
      congruence. }
    assert (Hy' := proj1 (contains_false YOUTU_BE url) Hy).
    rewrite (extract_video_id_invalid url Hw Hy') in Herr.
    injection Herr as <-. auto.
  - intros (-> & Hw & Hy). apply extract_video_id_invalid; assumption.
Qed.

Lemma extract_video_id_only_error_witness :
  extract_video_id (lit "https://vimeo.com/12345?v=abc")
  = Err (ValueError (lit "Invalid YouTube link")).
Proof.
  apply (proj2 (extract_video_id_only_error _ _)).
  split; [reflexivity|].
  split; apply contains_false; vm_compute; reflexivity.
Defined.

Lemma strip_spaces (ws : str) : forallb isspace ws = true -> strip ws = [].
Proof.
  intros Hws. unfold strip.
  assert (Hl : lstrip ws = []).
  { induction ws as [|c ws IH]; [reflexivity|].
    simpl in *. apply andb_prop in Hws as [Hc Hws]. rewrite Hc. auto. }
  rewrite Hl. reflexivity.
Qed.

Lemma forallb_take {A} (f : A -> bool) (n : nat) (l : list A) :
  forallb f l = true -> forallb f (take n l) = true.
Proof.
  rewrite !forallb_forall. intros Hl x Hx. apply Hl.
  rewrite <- (take_drop n l). apply in_or_app. left. exact Hx.
Qed.

Lemma spaces_have_no (sep ws a b : str) (c : ascii) (sep' : str) :
  sep = c :: sep' -> isspace c = false ->
  forallb isspace ws = true -> ~ occurs sep ws a b.
Proof.
  intros -> Hc Hws Hocc. unfold occurs in Hocc. rewrite Hocc in Hws.
  rewrite forallb_app in Hws. apply andb_prop in Hws as [_ Hws].
  simpl in Hws. rewrite Hc in Hws. discriminate.
Qed.

(** X10: the id may be empty: a string that ends with [watch?v=], or has
    only white space after it, gives the empty id and no error. *)
Theorem extract_video_id_blank (pre ws : str) :
  forallb isspace ws = true ->
  extract_video_id (pre ++ WATCH ++ ws) = Ok [].
Proof.
  intros Hws. unfold extract_video_id.
  assert (Hocc : occurs WATCH (pre ++ WATCH ++ ws) pre ws) by reflexivity.
  assert (Hc : contains WATCH (pre ++ WATCH ++ ws) = true)
    by (apply contains_true; eauto).
  rewrite Hc.
  rewrite (last_split WATCH _ pre ws WATCH_overlap_free ltac:(discriminate) Hocc).
  - simpl. rewrite first_split. simpl. f_equal.
    apply strip_spaces.
    destruct (find ws AMP); [apply forallb_take|]; exact Hws.
  - intros a b Hab.
    destruct (Nat.le_gt_cases (length a) (length pre)) as [|Hlate]; [assumption|].
    exfalso.
    assert (Hapart := overlap_free_apart WATCH _ pre ws a b
                        WATCH_overlap_free Hocc Hab Hlate).
    unfold occurs in Hab.
    destruct (app_eq_prefix a (pre ++ WATCH) (WATCH ++ b) ws) as [r Hr].
    { rewrite <- app_assoc. symmetry. exact Hab. }
    { rewrite length_app. exact Hapart. }
    subst a. rewrite <- !app_assoc in Hab.
    apply app_inv_head in Hab. apply app_inv_head in Hab.
    exact (spaces_have_no WATCH ws r b "w" (lit "atch?v=") eq_refl eq_refl Hws Hab).
Qed.

Lemma extract_video_id_blank_witness :
  extract_video_id (lit "https://www.youtube.com/watch?v=  ") = Ok [].
Proof.
  exact (extract_video_id_blank (lit "https://www.youtube.com/") (lit "  ")
           eq_refl).
Defined.

End VideoLinkFacts.

(** ** More on the transcript pipeline *)

Module TranscriptFacts.
Import PyFacts VideoProcessor VideoProcessorFacts VideoProcessorSpec.

Section Transcripts.
Context `{PF : PyFloat} `{!TranscriptApi} `{TextSplitter}.

Lemma entry_lines_fetched (transcript : list Snippet) :
  entry_lines (map entry_dict transcript) = Ok (map snippet_line transcript).
Proof.
  induction transcript as [|e rest IH]; [reflexivity|].
  simpl. rewrite entry_line_dict, IH. reflexivity.
Qed.

Lemma transcript_to_document_fetched (transcript : list Snippet) (url : str) :
  transcript_to_document (map entry_dict transcript) url
  = Ok (merged_document transcript url).
Proof.
  unfold transcript_to_document. rewrite entry_lines_fetched. reflexivity.
Qed.

(** X23: when the id is found and the provider answers, [load_transcript]
    returns one dictionary for each snippet, in order, with the keys
    [text], [start] and [duration] and nothing else, holding the snippet's
    text and its two floats. *)
Theorem load_transcript_dicts (url video_id : str) (log : net_log)
    (transcript : list Snippet) :
  extract_video_id url = Ok video_id ->
  YouTubeTranscriptApi_fetch video_id = Ok transcript ->
  exists dicts,
    load_transcript url log = (Ok dicts, log ++ [video_id]) /\
    Forall2 (fun e (d : gmap string value) =>
               dom d = ({["text"; "start"; "duration"]} : gset string) /\
               d !! "text" = Some (VStr (snippet_text e)) /\
               d !! "start" = Some (VFloat (snippet_start e)) /\
               d !! "duration" = Some (VFloat (snippet_duration e)))
            transcript dicts.
Proof.
  intros Hid Hfetch. exists (map entry_dict transcript). split.
  - unfold load_transcript. rewrite Hid, Hfetch. reflexivity.
  - clear. induction transcript as [|e rest IH]; simpl; constructor; [|exact IH].
    unfold entry_dict. split; [rewrite !dom_insert_L, dom_empty_L; set_solver|].
    split; [apply lookup_insert_eq|].
    split; [rewrite lookup_insert_ne by discriminate; apply lookup_insert_eq|].
    rewrite !lookup_insert_ne by discriminate. apply lookup_insert_eq.
Qed.

(** X11: [process_video] asks the provider once, for the id it extracted,
    and not at all when there is no id; an error of the provider is
    raised as it is; merging what the provider returned never raises, so
    the chunks are those of the merged transcript, annotated. *)
Theorem process_video_steps (self : t) (url : str) (log : net_log) :
  process_video self url log =
  match extract_video_id url with
  | Err e => (Err e, log)
  | Ok video_id =>
      match YouTubeTranscriptApi_fetch video_id with
      | Err e => (Err e, log ++ [video_id])
      | Ok transcript =>
          (Ok (map annotate
                 (chunk_document self (merged_document transcript url))),
           log ++ [video_id])
      end
  end.
Proof.
  unfold process_video, load_transcript.
  destruct (extract_video_id url) as [video_id|e]; [|reflexivity].
  destruct (YouTubeTranscriptApi_fetch video_id) as [transcript|e];
    [|reflexivity].
  simpl. rewrite transcript_to_document_fetched. reflexivity.
Qed.

Lemma format_start_Err (start : value) (e : exn) :
  format_start start = Err e <->
  (exists s, start = VStr s /\
             e = ValueError (lit "Unknown format code 'f' for object of type 'str'")) \/
  (exists z, start = VInt z /\ float_of_int z = Err e).
Proof.
  destruct start as [s|z|x]; cbn [format_start].
  - split.
    + intros [= <-]. left. eauto.
    + intros [(s' & _ & ->) | (z & Hz & _)]; [reflexivity|discriminate].
  - destruct (float_of_int z) as [x|e'] eqn:Hz; cbn [bind]; split.
    + discriminate.
    + intros [(s' & Hs & _) | (z' & [= <-] & Hz')]; congruence.
    + intros [= <-]. right. eauto.
    + intros [(s' & Hs & _) | (z' & [= <-] & Hz')]; congruence.
  - split; [discriminate|].
    intros [(s' & Hs & _) | (z' & Hz & _)]; discriminate.
Qed.

Lemma format_text_Err (t : value) (e : exn) :
  format_text t = Err e <-> exists z, t = VInt z /\ int_str z = Err e.
Proof.
  destruct t as [s|z|x]; cbn [format_text]; split;
    try discriminate; try (intros (z' & Hz & _); discriminate).
  - intros Hz. eauto.
  - intros (z' & [= <-] & Hz). exact Hz.
Qed.

Lemma default_start_VStr (entry : gmap string value) (s : str) :
  default (VInt 0) (entry !! "start") = VStr s <->
  entry !! "start" = Some (VStr s).
Proof.
  destruct (entry !! "start") as [v|]; simpl; split; congruence.
Qed.

Lemma default_text_VInt (entry : gmap string value) (z : Z) :
  default (VStr []) (entry !! "text") = VInt z <->
  entry !! "text" = Some (VInt z).
Proof.
  destruct (entry !! "text") as [v|]; simpl; split; congruence.
Qed.

Lemma entry_line_Err (entry : gmap string value) (e : exn) :
  entry_line entry = Err e <-> line_fails entry e.
Proof.
  unfold entry_line, line_fails, start_is_str.
  set (start := default (VInt 0) (entry !! "start")).
  assert (Hstr : forall s, start = VStr s <-> entry !! "start" = Some (VStr s))
    by apply default_start_VStr.
  destruct (format_start start) as [l|e'] eqn:Hstart; cbn [bind is_ok].
  - destruct (format_text (default (VStr []) (entry !! "text")))
      as [text|e'] eqn:Htext; cbn [bind]; split.
    + discriminate.
    + intros [[(s & Hs) _] | [(z & Hz & Hf) | (_ & z & Hz & Hi)]].
      * apply Hstr in Hs. rewrite Hs in Hstart. discriminate.
      * rewrite Hz in Hstart. cbn [format_start] in Hstart.
        rewrite Hf in Hstart. discriminate.
      * apply default_text_VInt in Hz. rewrite Hz in Htext.
        cbn [format_text] in Htext. congruence.
    + intros [= <-]. right. right. split; [reflexivity|].
      apply format_text_Err in Htext as (z & Hz & Hi).
      exists z. split; [apply default_text_VInt, Hz|exact Hi].
    + intros [[(s & Hs) _] | [(z & Hz & Hf) | (_ & z & Hz & Hi)]].
      * apply Hstr in Hs. rewrite Hs in Hstart. discriminate.
      * rewrite Hz in Hstart. cbn [format_start] in Hstart.
        rewrite Hf in Hstart. discriminate.
      * apply default_text_VInt in Hz. rewrite Hz in Htext.
        cbn [format_text] in Htext. congruence.
  - split.
    + intros [= <-].
      apply format_start_Err in Hstart as [(s & Hs & ->) | (z & Hz & Hf)].
      * left. split; [|reflexivity]. exists s. apply Hstr, Hs.
      * right. left. eauto.
    + intros [[(s & Hs) ->] | [(z & Hz & Hf) | (Hok & _)]].
      * apply Hstr in Hs. rewrite Hs in Hstart. cbn [format_start] in Hstart.
        congruence.
      * rewrite Hz in Hstart. cbn [format_start] in Hstart.
        rewrite Hf in Hstart. cbn [bind] in Hstart. congruence.
      * discriminate.
Qed.

Lemma entry_lines_Err (transcript : list (gmap string value)) (e : exn) :
  entry_lines transcript = Err e <->
  exists before entry after,
    transcript = before ++ entry :: after /\
    (forall b, In b before -> is_ok (entry_line b) = true) /\
    entry_line entry = Err e.
Proof.
  revert e. induction transcript as [|entry rest IH]; intros e;
    cbn [entry_lines].
  - split; [discriminate|]. intros (before & x & after & Heq & _).
    destruct before; discriminate.
  - destruct (entry_line entry) as [l|e'] eqn:Hl; cbn [bind].
    + destruct (entry_lines rest) as [ls|e'] eqn:Hls; cbn [bind].
      * split; [discriminate|].
        intros (before & x & after & Heq & Hok & Hx).
        destruct before as [|b before]; simpl in Heq; injection Heq as -> ->.
        -- congruence.
        -- assert (Hbad : Ok ls = Err e).
           { apply (IH e). exists before, x, after. split; [reflexivity|].
             split; [|exact Hx]. intros b' Hb'. apply Hok. right. exact Hb'. }
           discriminate.
      * split.
        -- intros [= ->].
           destruct (proj1 (IH e) eq_refl) as (before & x & after & -> & Hok & Hx).
           exists (entry :: before), x, after. split; [reflexivity|].
           split; [|exact Hx].
           intros b [<- | Hb]; [rewrite Hl; reflexivity|exact (Hok b Hb)].
        -- intros (before & x & after & Heq & Hok & Hx).
           destruct before as [|b before]; simpl in Heq; injection Heq as -> ->.
           ++ congruence.
           ++ apply (IH e). exists before, x, after. split; [reflexivity|].
              split; [|exact Hx]. intros b' Hb'. apply Hok. right. exact Hb'.
    + split.
      * intros [= <-]. exists [], entry, rest. split; [reflexivity|].
        split; [intros b []|exact Hl].
      * intros (before & x & after & Heq & Hok & Hx).
        destruct before as [|b before]; simpl in Heq; injection Heq as -> ->.
        -- congruence.
        -- assert (Hb := Hok b (or_introl eq_refl)). rewrite Hl in Hb.
           discriminate.
Qed.

(** X12: [transcript_to_document] raises exactly when the line of some
    entry cannot be made, and then the error of the first such entry; a
    line cannot be made when [start] is a string (the error of the [.1f]
    format), when [start] is an int too large for a float, or when [text]
    is an int too long to print.  A missing key raises nothing by itself:
    an entry without [start] is formatted as with [start = 0] and an entry
    without [text] as with the empty text. *)
Theorem transcript_to_document_errors
    (transcript : list (gmap string value)) (url : str) :
  (forall e,
     transcript_to_document transcript url = Err e <->
     exists before entry after,
       transcript = before ++ entry :: after /\
       (forall b, In b before -> is_ok (entry_line b) = true) /\
       entry_line entry = Err e) /\
  (forall entry e, entry_line entry = Err e <-> line_fails entry e) /\
  (forall entry : gmap string value,
     entry !! "start" = None ->
     entry_line entry = entry_line (<["start" := VInt 0]> entry)) /\
  (forall entry : gmap string value,
     entry !! "text" = None ->
     entry_line entry = entry_line (<["text" := VStr []]> entry)).
Proof.
  split; [|split; [|split]].
  - intros e. rewrite <- entry_lines_Err. unfold transcript_to_document.
    destruct (entry_lines transcript); simpl; split; congruence.
  - apply entry_line_Err.
  - intros entry Hnone. unfold entry_line.
    rewrite Hnone, lookup_insert_eq.
    rewrite lookup_insert_ne by discriminate. reflexivity.
  - intros entry Hnone. unfold entry_line.
    rewrite Hnone, lookup_insert_eq.
    rewrite lookup_insert_ne by discriminate. reflexivity.
Qed.

(** *** Annotation *)

Lemma is_marker_decimal (m g : str) : is_marker m g -> decimal g.
Proof.
  intros (d1 & d2 & H1 & H2 & H3 & H4 & Hg & _). exists d1, d2. auto.
Qed.

(** X13: annotating keeps the content and every metadata entry other than
    [timestamp_start], and annotating twice is annotating once. *)
Theorem annotate_again (ch : Document) :
  annotate (annotate ch) = annotate ch /\
  page_content (annotate ch) = page_content ch /\
  (forall k : string,
     k <> "timestamp_start"%string ->
     metadata (annotate ch) !! k = metadata ch !! k).
Proof.
  unfold annotate. destruct (re_search (page_content ch)) as [g|] eqn:Hs; simpl.
  - rewrite Hs. split; [|split; [reflexivity|]].
    + rewrite insert_insert_eq. reflexivity.
    + intros k Hk. apply lookup_insert_ne. congruence.
  - rewrite Hs. auto.
Qed.

(** X14: the text that [annotate] hands to [float] is always digits, a
    dot, digits, taken from a marker of the content; a chunk is either
    left as it is or gets the float of such a text. *)
Theorem annotate_reads_decimals (ch : Document) :
  annotate ch = ch \/
  exists (i : nat) (g : str),
    first_marker (page_content ch) i g /\ decimal g /\
    annotate ch =
    mkDocument (page_content ch)
      (<["timestamp_start" := VFloat (float_of_str g)]> (metadata ch)).
Proof.
  unfold annotate. destruct (re_search (page_content ch)) as [g|] eqn:Hs.
  - right. destruct (re_search_Some_inv _ _ Hs) as (i & Hfirst).
    exists i, g. split; [exact Hfirst|]. split; [|reflexivity].
    destruct Hfirst as [(pre & m & post & _ & _ & Hm) _].
    exact (is_marker_decimal _ _ Hm).
  - left. reflexivity.
Qed.

(** X15: a chunk that begins with the line of a transcript entry whose
    start time prints as digits, a dot, digits is stamped with the float
    of that printed time, whatever follows in the chunk. *)
Theorem annotate_line_start (ch : Document) (e : Snippet) (rest : str) :
  decimal (format_1f (snippet_start e)) ->
  page_content ch = snippet_line e ++ rest ->
  metadata (annotate ch) !! "timestamp_start"
  = Some (VFloat (float_of_str (format_1f (snippet_start e)))).
Proof.
  intros (d1 & d2 & H1 & H2 & H3 & H4 & Hg) Hcontent.
  assert (Hm : match_timestamp (page_content ch)
               = Some (format_1f (snippet_start e))).
  { rewrite Hcontent. unfold snippet_line.
    replace ((lit "[" ++ format_1f (snippet_start e) ++ lit "s] "
              ++ snippet_text e) ++ rest)
      with ((lit "[" ++ format_1f (snippet_start e) ++ lit "s]")
            ++ (lit " " ++ snippet_text e ++ rest))
      by (rewrite <- !app_assoc; reflexivity).
    apply match_timestamp_complete. exists d1, d2. auto 10. }
  unfold annotate. rewrite re_search_unfold, Hm. simpl.
  apply lookup_insert_eq.
Qed.

End Transcripts.

Lemma load_transcript_dicts_witness :
  exists dicts,
    @load_transcript Doubles.text_float Doubles.canned_api
      (lit "https://youtu.be/abc123") []
    = (Ok dicts, [] ++ [lit "abc123"]) /\
    length dicts = 2.
Proof.
  destruct (@load_transcript_dicts Doubles.text_float Doubles.canned_api
              (lit "https://youtu.be/abc123") (lit "abc123") [] _
              ltac:(vm_compute; reflexivity) eq_refl)
    as (dicts & Hload & Hall).
  exists dicts. split; [exact Hload|].
  apply Forall2_length in Hall. rewrite <- Hall. reflexivity.
Defined.

Lemma transcript_to_document_errors_witness :
  @transcript_to_document Doubles.text_float
    [ {["text" := VStr (lit "hello")]};
      <["start" := VInt (2 ^ 1100)]> {["text" := VStr (lit "world")]};
      {["start" := VStr (lit "soon")]} ]
    (lit "https://youtu.be/abc123")
  = Err (External (lit "OverflowError: int too large to convert to float")).
Proof.
  apply (proj2 (proj1 (@transcript_to_document_errors Doubles.text_float _ _) _)).
  exists [ {["text" := VStr (lit "hello")]} ],
         (<["start" := VInt (2 ^ 1100)]> {["text" := VStr (lit "world")]}),
         [ {["start" := VStr (lit "soon")]} ].
  split; [reflexivity|]. split.
  - intros b [<- | []]. vm_compute. reflexivity.
  - vm_compute. reflexivity.
Defined.

Lemma annotate_again_witness :
  let ch := Doubles.doc EXAMPLE_TEXT {["source" := VStr (lit "u")]} in
  metadata (annotate ch) !! "source" = metadata ch !! "source".
Proof.
  intros ch.
  apply (proj2 (proj2 (@annotate_again Doubles.text_float ch)) "source"%string).
  discriminate.
Defined.

Lemma annotate_line_start_witness :
  let e := @mkSnippet Doubles.text_float (lit "world") (lit "2.5") (lit "1.0") in
  let ch := Doubles.doc (lit "[2.5s] world and more") ∅ in
  metadata (annotate ch) !! "timestamp_start"
  = Some (VFloat (lit "2.5" : @float Doubles.text_float)).
Proof.
  intros e ch.
  apply (@annotate_line_start Doubles.text_float ch e (lit " and more")).
  - exists (lit "2"), (lit "5"). repeat split; discriminate.
  - reflexivity.
Defined.

End TranscriptFacts.

(** ** More on the vector store *)

Module VectorStoreMoreFacts.
Import VectorStore VectorStoreSpec.

Section Coherence.
Context `{PF : PyFloat} `{!Pinecone} `{Config}.

Lemma coherent_attached (self : t) : coherent self -> attached self.
Proof. intros [Hv Hr]. split; [eauto|exact Hr]. Qed.

(** What [__init__] returns, when it returns. *)
Lemma init_Ok (given : option str) (w : world) (self : t) :
  init given w = Ok self ->
  let emb := mkEmbeddings EMBEDDING_MODEL_NAME (lit "cpu") true in
  self =
  mk emb PINECONE_INDEX_NAME (namespace_or_default given)
     (mkPineconeVectorStore emb PINECONE_INDEX_NAME TEXT_KEY
        (namespace_or_default given) PINECONE_API_KEY)
     None.
Proof.
  unfold init.
  destruct (HuggingFaceEmbeddings_init _) as [[]|e]; cbn [bind]; [|discriminate].
  destruct (PineconeVectorStore_init _ _) as [[]|e]; cbn [bind]; [|discriminate].
  intros [= <-]. reflexivity.
Qed.

Lemma init_coherent (given : option str) (w : world) (self : t) :
  init given w = Ok self -> coherent self.
Proof.
  intros Hinit. rewrite (init_Ok _ _ _ Hinit).
  split; [reflexivity|left; reflexivity].
Qed.

Lemma add_documents_same (self : t) (documents : list Document) (w : world) :
  same_but_retriever self (add_documents self documents w).1.2.
Proof.
  unfold add_documents, same_but_retriever.
  destruct documents as [|d ds]; [repeat split; auto|].
  destruct (pinecone_add_documents (vectorstore self) (d :: ds) (remote w))
    as [[u|e] remote']; simpl; repeat split; auto.
Qed.

Lemma get_retriever_same (self : t) :
  same_but_retriever self (get_retriever self).2.
Proof.
  unfold get_retriever, same_but_retriever.
  destruct (retriever self) eqn:Hr; simpl; repeat split; auto.
Qed.

Lemma same_attached (self self' : t) :
  same_but_retriever self self' -> attached self -> attached self'.
Proof.
  intros (He & Hi & Hn & Hv & Hr) [(ns & Hs) Hret]. split.
  - exists ns. rewrite Hv, He, Hi. exact Hs.
  - rewrite Hv. destruct Hr as [Hr | Hr]; rewrite Hr; auto.
Qed.

Lemma same_coherent (self self' : t) :
  same_but_retriever self self' -> coherent self -> coherent self'.
Proof.
  intros (He & Hi & Hn & Hv & Hr) [Hs Hret]. split.
  - rewrite Hv, He, Hi, Hn. exact Hs.
  - rewrite Hv. destruct Hr as [Hr | Hr]; rewrite Hr; auto.
Qed.

Lemma get_retriever_attached (self : t) :
  attached self -> (get_retriever self).1 = as_retriever (vectorstore self).
Proof.
  intros [_ [Hr | Hr]]; unfold get_retriever; rewrite Hr; reflexivity.
Qed.

Lemma retrieve_object (self : t) (query : str) (k : Z) (w : world) :
  (retrieve self query k w).1.2 = (get_retriever self).2 /\
  calls (retrieve self query k w).2
  = calls w ++ [CallInvoke (get_retriever self).1 query].
Proof.
  unfold retrieve. destruct (get_retriever self) as [r self'].
  destruct (pinecone_invoke r query (remote w)) as [res remote']. auto.
Qed.

Lemma retrieve_same (self : t) (query : str) (k : Z) (w : world) :
  same_but_retriever self (retrieve self query k w).1.2.
Proof.
  rewrite (proj1 (retrieve_object self query k w)). apply get_retriever_same.
Qed.

(** The two ways in which [switch_namespace] ends. *)
Lemma switch_namespace_cases (self : t) (namespace : str) (w : world) :
  let store :=
    mkPineconeVectorStore (embedding self) (index_name self) TEXT_KEY
      namespace PINECONE_API_KEY in
  ((switch_namespace self namespace w).1 = Ok tt /\
   (switch_namespace self namespace w).2 =
   mk (embedding self) (index_name self) namespace store
      (Some (as_retriever store))) \/
  (exists e,
     (switch_namespace self namespace w).1 = Err e /\
     PineconeVectorStore_init store (remote w) = Err e /\
     (switch_namespace self namespace w).2 =
     mk (embedding self) (index_name self) namespace (vectorstore self)
        (retriever self)).
Proof.
  intros store. unfold switch_namespace. fold store.
  destruct (PineconeVectorStore_init store (remote w)) as [[]|e]; simpl.
  - left. auto.
  - right. exists e. auto.
Qed.

Lemma switch_namespace_Ok (self : t) (namespace : str) (w : world) :
  (switch_namespace self namespace w).1 = Ok tt ->
  (switch_namespace self namespace w).2 =
  mk (embedding self) (index_name self) namespace
     (mkPineconeVectorStore (embedding self) (index_name self) TEXT_KEY
        namespace PINECONE_API_KEY)
     (Some (as_retriever
              (mkPineconeVectorStore (embedding self) (index_name self)
                 TEXT_KEY namespace PINECONE_API_KEY))).
Proof.
  intros Hok. destruct (switch_namespace_cases self namespace w)
    as [[_ Hobj] | (e & He & _)]; [exact Hobj|congruence].
Qed.

Lemma switch_namespace_Err (self : t) (namespace : str) (w : world) (e : exn) :
  (switch_namespace self namespace w).1 = Err e ->
  (switch_namespace self namespace w).2 =
  mk (embedding self) (index_name self) namespace (vectorstore self)
     (retriever self).
Proof.
  intros Herr. destruct (switch_namespace_cases self namespace w)
    as [[Hok _] | (e' & _ & _ & Hobj)]; [congruence|exact Hobj].
Qed.

(** How a switch ends depends on the object only through its embeddings
    and its index name. *)
Lemma switch_namespace_from (self1 self2 : t) (namespace : str) (w : world) :
  embedding self1 = embedding self2 ->
  index_name self1 = index_name self2 ->
  (switch_namespace self1 namespace w).1 = (switch_namespace self2 namespace w).1 /\
  ((switch_namespace self2 namespace w).1 = Ok tt ->
   (switch_namespace self1 namespace w).2 = (switch_namespace self2 namespace w).2).
Proof.
  intros He Hi. unfold switch_namespace. rewrite He, Hi.
  destruct (PineconeVectorStore_init _ (remote w)) as [[]|e]; simpl.
  - auto.
  - split; [reflexivity|discriminate].
Qed.

Lemma switch_namespace_attached (self : t) (namespace : str) (w : world) :
  attached self -> attached (switch_namespace self namespace w).2.
Proof.
  intros [(ns & Hs) Hret].
  destruct (switch_namespace_cases self namespace w)
    as [[_ ->] | (e & _ & _ & ->)].
  - split; [eexists; reflexivity|right; reflexivity].
  - split; [exists ns; exact Hs|exact Hret].
Qed.

Lemma switch_namespace_coherent (self : t) (namespace : str) (w : world) :
  (switch_namespace self namespace w).1 = Ok tt ->
  coherent (switch_namespace self namespace w).2.
Proof.
  intros Hok. rewrite (switch_namespace_Ok _ _ _ Hok).
  split; [reflexivity|right; reflexivity].
Qed.

Lemma reachable_attached (self : t) : reachable self -> attached self.
Proof.
  induction 1 as [ns w self Hinit|self docs w _ IH|self _ IH|self q k w _ IH
                 |self ns w _ IH].
  - apply coherent_attached, (init_coherent ns w), Hinit.
  - exact (same_attached _ _ (add_documents_same self docs w) IH).
  - exact (same_attached _ _ (get_retriever_same self) IH).
  - exact (same_attached _ _ (retrieve_same self q k w) IH).
  - apply switch_namespace_attached, IH.
Qed.

Lemma settled_coherent (self : t) : settled self -> coherent self.
Proof.
  induction 1 as [ns w self Hinit|self docs w _ IH|self _ IH|self q k w _ IH
                 |self ns w _ Hok].
  - apply (init_coherent ns w), Hinit.
  - exact (same_coherent _ _ (add_documents_same self docs w) IH).
  - exact (same_coherent _ _ (get_retriever_same self) IH).
  - exact (same_coherent _ _ (retrieve_same self q k w) IH).
  - apply switch_namespace_coherent, Hok.
Qed.

Lemma attached_calls (self : t) :
  attached self ->
  (forall query k w, exists c,
     calls (retrieve self query k w).2 = calls w ++ [c] /\
     call_namespace c = pvs_namespace (vectorstore self)) /\
  (forall d ds w, exists c,
     calls (add_documents self (d :: ds) w).2 = calls w ++ [c] /\
     call_namespace c = pvs_namespace (vectorstore self)).
Proof.
  intros Ha. split.
  - intros query k w. eexists. split; [apply retrieve_object|].
    simpl. rewrite (get_retriever_attached self Ha). reflexivity.
  - intros d ds w. exists (CallAddDocuments (vectorstore self) (d :: ds)).
    split; [|reflexivity]. unfold add_documents.
    destruct (pinecone_add_documents (vectorstore self) (d :: ds) (remote w))
      as [[u|e] remote']; reflexivity.
Qed.

(** X16: for every store object that can exist (returned by [__init__]
    and then passed through the methods, [switch_namespace] whether it
    returns or raises), the handle is one for the object's own embeddings
    and index name and a retriever, once set, is the retriever of that
    handle; so [retrieve] and [add_documents] each make one call to the
    backend, addressed to the namespace of the handle.  That namespace is
    the namespace of the object whenever the last [switch_namespace], if
    there was one, returned. *)
Theorem reachable_stays_on_namespace (self : t) :
  (reachable self ->
   attached self /\
   (forall query k w, exists c,
      calls (retrieve self query k w).2 = calls w ++ [c] /\
      call_namespace c = pvs_namespace (vectorstore self)) /\
   (forall d ds w, exists c,
      calls (add_documents self (d :: ds) w).2 = calls w ++ [c] /\
      call_namespace c = pvs_namespace (vectorstore self))) /\
  (settled self ->
   coherent self /\ pvs_namespace (vectorstore self) = namespace self).
Proof.
  split.
  - intros Hreach. assert (Ha := reachable_attached self Hreach).
    split; [exact Ha|]. apply attached_calls, Ha.
  - intros Hset. assert (Hc := settled_coherent self Hset).
    split; [exact Hc|]. rewrite (proj1 Hc). reflexivity.
Qed.

(** X17: when [switch_namespace] returns, the object is on the new
    namespace with a handle and a retriever for it, whatever it was
    before, and [retrieve] asks the new namespace and leaves the object
    as it is.  When [switch_namespace] raises, the object already has the
    new namespace but still the handle and the retriever it had, so
    [retrieve] makes the call it would have made before the switch.  A
    switch after a switch ends as it would have without the first one,
    and when it returns the object is the same too. *)
Theorem switch_namespace_then_retrieve (self : t) (a b query : str) (k : Z)
    (w w' : world) :
  ((switch_namespace self b w).1 = Ok tt ->
   let self' := (switch_namespace self b w).2 in
   namespace self' = b /\ coherent self' /\
   (exists c,
      calls (retrieve self' query k w').2 = calls w' ++ [c] /\
      call_namespace c = b) /\
   (retrieve self' query k w').1.2 = self') /\
  (forall e,
     (switch_namespace self b w).1 = Err e ->
     let self' := (switch_namespace self b w).2 in
     namespace self' = b /\
     vectorstore self' = vectorstore self /\
     retriever self' = retriever self /\
     calls (retrieve self' query k w').2 = calls (retrieve self query k w').2) /\
  ((switch_namespace (switch_namespace self a w).2 b w').1
   = (switch_namespace self b w').1 /\
   ((switch_namespace self b w').1 = Ok tt ->
    (switch_namespace (switch_namespace self a w).2 b w').2
    = (switch_namespace self b w').2)).
Proof.
  split; [|split].
  - intros Hok self'. unfold self'. rewrite (switch_namespace_Ok _ _ _ Hok).
    split; [reflexivity|]. split; [split; [reflexivity|right; reflexivity]|].
    split.
    + eexists. split; [apply retrieve_object|]. reflexivity.
    + rewrite (proj1 (retrieve_object _ _ _ _)). reflexivity.
  - intros e Herr self'. unfold self'. rewrite (switch_namespace_Err _ _ _ _ Herr).
    split; [reflexivity|]. split; [reflexivity|]. split; [reflexivity|].
    rewrite (proj2 (retrieve_object _ _ _ _)), (proj2 (retrieve_object self _ _ _)).
    unfold get_retriever. simpl. destruct (retriever self); reflexivity.
  - assert (Hfields : embedding (switch_namespace self a w).2 = embedding self /\
                      index_name (switch_namespace self a w).2 = index_name self).
    { destruct (switch_namespace_cases self a w)
        as [[_ ->] | (e & _ & _ & ->)]; auto. }
    destruct Hfields as [He Hi].
    exact (switch_namespace_from _ self b w' He Hi).
Qed.

(** X18: [retrieve] always leaves the object with a retriever, and the
    object changes at most at the first call: a second [retrieve] uses
    the retriever of the first and leaves the object as it found it. *)
Theorem retrieve_keeps_its_retriever (self : t) (query query' : str)
    (k k' : Z) (w w' : world) :
  let self' := (retrieve self query k w).1.2 in
  retriever self' = Some (get_retriever self).1 /\
  (retrieve self' query' k' w').1.2 = self' /\
  calls (retrieve self' query' k' w').2
  = calls w' ++ [CallInvoke (get_retriever self).1 query'].
Proof.
  intros self'. unfold self'.
  rewrite (proj1 (retrieve_object self query k w)).
  assert (Hset : retriever (get_retriever self).2 = Some (get_retriever self).1).
  { unfold get_retriever. destruct (retriever self) eqn:Hr; simpl; auto. }
  assert (Hget : get_retriever (get_retriever self).2
                 = ((get_retriever self).1, (get_retriever self).2)).
  { unfold get_retriever at 1. rewrite Hset. reflexivity. }
  split; [exact Hset|].
  destruct (retrieve_object (get_retriever self).2 query' k' w') as [Ho Hc].
  rewrite Ho, Hc, Hget. auto.
Qed.

(** X19: [__init__] raises exactly when the constructor of the embeddings
    raises, or else the constructor of the store, with that error.  The
    object it returns has no retriever and the configured index name;
    without a namespace, or with the empty string for one, it is on the
    configured namespace and its first [retrieve] asks that namespace;
    with a non-empty namespace it is on that one. *)
Theorem init_default_namespace (given : option str) (w : world) :
  let emb := mkEmbeddings EMBEDDING_MODEL_NAME (lit "cpu") true in
  let store :=
    mkPineconeVectorStore emb PINECONE_INDEX_NAME TEXT_KEY
      (namespace_or_default given) PINECONE_API_KEY in
  (forall e,
     init given w = Err e <->
     HuggingFaceEmbeddings_init emb = Err e \/
     (HuggingFaceEmbeddings_init emb = Ok tt /\
      PineconeVectorStore_init store (remote w) = Err e)) /\
  (forall self,
     init given w = Ok self ->
     retriever self = None /\
     index_name self = PINECONE_INDEX_NAME /\
     vectorstore self = store /\
     (given = None \/ given = Some [] ->
      namespace self = PINECONE_NAMESPACE /\
      forall query k w', exists c,
        calls (retrieve self query k w').2 = calls w' ++ [c] /\
        call_namespace c = PINECONE_NAMESPACE) /\
     (forall ns, given = Some ns -> ns <> [] -> namespace self = ns)).
Proof.
  intros emb store. split.
  - intros e. unfold init. fold emb. fold store.
    destruct (HuggingFaceEmbeddings_init emb) as [[]|e1]; cbn [bind].
    + destruct (PineconeVectorStore_init store (remote w)) as [[]|e2];
        cbn [bind]; split.
      * discriminate.
      * intros [He | [_ He]]; discriminate.
      * intros [= <-]. right. auto.
      * intros [He | [_ He]]; [discriminate|congruence].
    + split.
      * intros [= <-]. left. reflexivity.
      * intros [He | [He _]]; [congruence|discriminate].
  - intros self Hinit. rewrite (init_Ok _ _ _ Hinit).
    split; [reflexivity|]. split; [reflexivity|]. split; [reflexivity|]. split.
    + intros Hgiven.
      assert (Hns : namespace_or_default given = PINECONE_NAMESPACE)
        by (destruct Hgiven as [-> | ->]; reflexivity).
      split; [exact Hns|]. intros query k w'. eexists.
      split; [apply retrieve_object|]. simpl. exact Hns.
    + intros ns -> Hns. destruct ns; [contradiction|reflexivity].
Qed.

(** X20: [add_documents] leaves the object as it was whenever it raises,
    for an empty list as for an error of the backend; when it returns, the
    list was not empty, the retriever is the one of the object's handle and
    the other fields are what they were. *)
Theorem add_documents_outcome (self : t) (documents : list Document) (w : world) :
  (forall e, (add_documents self documents w).1.1 = Err e ->
             (add_documents self documents w).1.2 = self) /\
  ((add_documents self documents w).1.1 = Ok tt ->
   documents <> [] /\
   (add_documents self documents w).1.2
   = set_retriever self (as_retriever (vectorstore self)) /\
   (pinecone_add_documents (vectorstore self) documents (remote w)).1 = Ok tt).
Proof.
  unfold add_documents. destruct documents as [|d ds]; simpl.
  - split; [reflexivity|discriminate].
  - destruct (pinecone_add_documents (vectorstore self) (d :: ds) (remote w))
      as [[[]|e0] remote']; simpl; split; try discriminate; auto.
Qed.

End Coherence.

Lemma reachable_stays_on_namespace_witness :
  let up := @mkWorld _ FailingDoubles.fragile_index true [] in
  let down := @mkWorld _ FailingDoubles.fragile_index false [] in
  exists self0,
    @init _ FailingDoubles.fragile_index Doubles.test_config None up = Ok self0 /\
    @coherent Doubles.test_config self0 /\
    let self :=
      (@switch_namespace _ FailingDoubles.fragile_index Doubles.test_config
         self0 (lit "b") down).2 in
    namespace self = lit "b" /\
    pvs_namespace (vectorstore self) = lit "default" /\
    (forall query k w, exists c,
       calls (@retrieve _ FailingDoubles.fragile_index self query k w).2
       = calls w ++ [c] /\
       call_namespace c = pvs_namespace (vectorstore self)).
Proof.
  intros up down.
  destruct (@init _ FailingDoubles.fragile_index Doubles.test_config None up)
    as [self0|e] eqn:Hinit; [|discriminate Hinit].
  exists self0. split; [reflexivity|].
  assert (Hset : @settled _ FailingDoubles.fragile_index Doubles.test_config self0)
    by exact (settled_init None up self0 Hinit).
  assert (Hreach : @reachable _ FailingDoubles.fragile_index Doubles.test_config
                     (@switch_namespace _ FailingDoubles.fragile_index
                        Doubles.test_config self0 (lit "b") down).2)
    by exact (reach_switch_namespace self0 (lit "b") down
                (reach_init None up self0 Hinit)).
  split.
  - exact (proj1 (proj2 (@reachable_stays_on_namespace _
                           FailingDoubles.fragile_index Doubles.test_config self0)
                   Hset)).
  - intros self. split; [reflexivity|]. split.
    + injection Hinit as <-. reflexivity.
    + exact (proj1 (proj2 (proj1 (@reachable_stays_on_namespace _
                                    FailingDoubles.fragile_index
                                    Doubles.test_config self) Hreach))).
Defined.

Lemma switch_namespace_then_retrieve_witness :
  let up := @mkWorld _ FailingDoubles.fragile_index true [] in
  let down := @mkWorld _ FailingDoubles.fragile_index false [] in
  exists self0,
    @init _ FailingDoubles.fragile_index Doubles.test_config None up = Ok self0 /\
    (let self' :=
       (@switch_namespace _ FailingDoubles.fragile_index Doubles.test_config
          self0 (lit "b") down).2 in
     namespace self' = lit "b" /\
     vectorstore self' = vectorstore self0 /\
     retriever self' = retriever self0 /\
     calls (@retrieve _ FailingDoubles.fragile_index self' (lit "q") 4 up).2
     = calls (@retrieve _ FailingDoubles.fragile_index self0 (lit "q") 4 up).2) /\
    (let self' :=
       (@switch_namespace _ FailingDoubles.fragile_index Doubles.test_config
          self0 (lit "b") up).2 in
     namespace self' = lit "b" /\ @coherent Doubles.test_config self').
Proof.
  intros up down.
  destruct (@init _ FailingDoubles.fragile_index Doubles.test_config None up)
    as [self0|e] eqn:Hinit; [|discriminate Hinit].
  exists self0. split; [reflexivity|]. split.
  - exact (proj1 (proj2
             (@switch_namespace_then_retrieve _ FailingDoubles.fragile_index
                Doubles.test_config self0 (lit "a") (lit "b") (lit "q") 4 down up))
             (External (lit "PineconeApiException")) eq_refl).
  - destruct (proj1
                (@switch_namespace_then_retrieve _ FailingDoubles.fragile_index
                   Doubles.test_config self0 (lit "a") (lit "b") (lit "q") 4 up up)
                eq_refl) as (Hns & Hc & _).
    split; [exact Hns|exact Hc].
Defined.

Lemma init_default_namespace_witness :
  let w := @mkWorld _ Doubles.memory_index [] [] in
  (exists self,
     @init _ Doubles.memory_index Doubles.test_config (Some []) w = Ok self /\
     namespace self = lit "default") /\
  @init _ Doubles.memory_index FailingDoubles.keyless_config (Some []) w
  = Err (ValueError (lit "Pinecone API key must be provided")).
Proof.
  intros w. split.
  - destruct (@init _ Doubles.memory_index Doubles.test_config (Some []) w)
      as [self|e] eqn:Hinit; [|discriminate Hinit].
    exists self. split; [reflexivity|].
    destruct (proj2 (@init_default_namespace _ Doubles.memory_index
                       Doubles.test_config (Some []) w) self Hinit)
      as (_ & _ & _ & Hdefault & _).
    exact (proj1 (Hdefault (or_intror eq_refl))).
  - apply (proj2 (proj1 (@init_default_namespace _ Doubles.memory_index
                           FailingDoubles.keyless_config (Some []) w) _)).
    right. split; reflexivity.
Defined.

Lemma add_documents_outcome_witness :
  let w := @mkWorld _ Doubles.memory_index [] [] in
  exists self,
    @init _ Doubles.memory_index Doubles.test_config (Some (lit "ns")) w
    = Ok self /\
    (@add_documents _ Doubles.memory_index self [] w).1.2 = self /\
    retriever
      (@add_documents _ Doubles.memory_index self [Doubles.doc (lit "one") ∅] w).1.2
    = Some (as_retriever (vectorstore self)).
Proof.
  intros w.
  destruct (@init _ Doubles.memory_index Doubles.test_config (Some (lit "ns")) w)
    as [self|e] eqn:Hinit; [|discriminate Hinit].
  exists self. split; [reflexivity|]. split.
  - exact (proj1 (@add_documents_outcome _ Doubles.memory_index self [] w)
             _ eq_refl).
  - destruct (proj2 (@add_documents_outcome _ Doubles.memory_index self
                       [Doubles.doc (lit "one") ∅] w) eq_refl)
      as (_ & -> & _).
    reflexivity.
Defined.

End VectorStoreMoreFacts.
